(** * seclist: the SEC 13F securities-list parser (seclist/parser.py)

    A shallow embedding of [seclist.parser]: the page locator, the page
    segmenter, the header validator, the record extractor and the document
    aggregator, with the properties of the specification stated over them.
    The last parts go further into the code: where its patterns match, what
    the segmenter yields, which processes are run, which pages parse and
    which exceptions a page can raise.

    Conventions.
    - A Python [str] is a list of Unicode code points ([N]); a Python
      [bytes] is a list of [byte].
    - A Python call either returns a value or raises: [result].
    - [pdftotext] is an external process: the functions that run it thread a
      [World] through a call of [Popen].
    - The Unicode tables of CPython that the parser can reach on non-ASCII
      text ([str.lower], [str.isdigit], [int]) are not part of the
      repository: they are fields of the [interp] record, and every
      definition is written out on ASCII text. *)

From Stdlib Require Import Strings.String Strings.Ascii Strings.Byte.
From Stdlib Require Import DecimalString.
From Stdlib Require Import NArith ZArith Bool Arith Lia List.
Import ListNotations.

Set Implicit Arguments.

(** ** Values and exceptions *)

Definition char := N.
Definition str := list char.
Definition bytes := list byte.

(** A [str] literal and a [bytes] literal. *)
Definition lit (s : string) : str := map Byte.to_N (list_byte_of_string s).
Definition blit (s : string) : bytes := list_byte_of_string s.

(** The argument of an exception: a fixed text, or the values an f-string
    was built from. *)
Inductive message :=
| Text (s : string)
| Total_does_not_match (total : N) (expectation : option N)
| Invalid_literal (s : str)
| Exceeds_digit_limit (digits : nat).

Inductive exn :=
| ValueError (msg : message)
| RuntimeError (msg : message)
| AttributeError (attr : string)     (* 'NoneType' object has no attribute attr *)
| NameError (name : string)          (* name is not defined *)
| UnboundLocalError (name : string)  (* local variable referenced before assignment *)
| IndexError
| UnicodeDecodeError.

Inductive result (A : Type) :=
| Ok (a : A)
| Raise (e : exn).

Arguments Ok {A} a.
Arguments Raise {A} e.

Definition bind {A B} (m : result A) (f : A -> result B) : result B :=
  match m with
  | Ok a => f a
  | Raise e => Raise e
  end.

Declare Scope py_scope.
Delimit Scope py_scope with py.
Notation "x <- m ;; k" := (bind m (fun x => k))
  (at level 61, m at next level, right associativity) : py_scope.
Notation "' p <- m ;; k" := (bind m (fun x => let p := x in k))
  (at level 61, p pattern, m at next level, right associativity) : py_scope.
Open Scope py_scope.

(** [a or b] on conditions that may raise: [b] is not evaluated when [a]
    is true. *)
Definition or_else (a b : result bool) : result bool :=
  x <- a ;; if x then Ok true else b.

(** ** Sequences: indexing and slicing *)

(** [l[i]] for [0 <= i]. *)
Definition index {A} (l : list A) (i : nat) : result A :=
  match nth_error l i with
  | Some a => Ok a
  | None => Raise IndexError
  end.

(** [l[a:b]] for [0 <= a] and [0 <= b]: out-of-range bounds are clipped. *)
Definition slice {A} (l : list A) (a b : nat) : list A :=
  firstn (b - a) (skipn a l).

(** [l[a:]]. *)
Definition slice_from {A} (l : list A) (a : nat) : list A := skipn a l.

(** [l[-1]]. *)
Definition last_item {A} (l : list A) : result A :=
  match l with
  | [] => Raise IndexError
  | _ => index l (length l - 1)
  end.

(** ** [str] methods *)

Fixpoint startswith (p s : str) : bool :=
  match p, s with
  | [], _ => true
  | _ :: _, [] => false
  | a :: p', b :: s' => (a =? b)%N && startswith p' s'
  end.

(** [s.find(sub)]: the offset of the first occurrence, also the start of
    [re.search(sub, s)] for a pattern without special characters. *)
Fixpoint find (sub s : str) : option nat :=
  if startswith sub s then Some 0
  else match s with
       | [] => None
       | _ :: s' => option_map S (find sub s')
       end.

(** [sub in s]. *)
Definition contains (sub s : str) : bool :=
  match find sub s with Some _ => true | None => false end.

(** [s.split(sep)] for a one-character separator. *)
Fixpoint split (sep : char) (s : str) : list str :=
  match s with
  | [] => [[]]
  | c :: s' =>
      if (c =? sep)%N then [] :: split sep s'
      else match split sep s' with
           | [] => [[c]]
           | w :: ws => (c :: w) :: ws
           end
  end.

(** [old] is not empty. The occurrences are replaced from the left and do
    not overlap: after one is found, its [length old - 1] other characters
    are passed over ([skip]). *)
Fixpoint replace_from (old new : str) (skip : nat) (s : str) : str :=
  match s with
  | [] => []
  | c :: s' =>
      match skip with
      | S k => replace_from old new k s'
      | O =>
          if startswith old s
          then new ++ replace_from old new (length old - 1) s'
          else c :: replace_from old new 0 s'
      end
  end.

(** [s.replace(old, new)]. *)
Definition replace (old new s : str) : str := replace_from old new 0 s.

(** [Py_UNICODE_ISSPACE]: what [str.strip()] removes and what [\s] matches
    in a [str] pattern. *)
Definition isspace (c : char) : bool :=
  ((9 <=? c) && (c <=? 13) || (28 <=? c) && (c <=? 32) || (c =? 133)
   || (c =? 160) || (c =? 5760) || (8192 <=? c) && (c <=? 8202)
   || (c =? 8232) || (c =? 8233) || (c =? 8239) || (c =? 8287)
   || (c =? 12288))%N.

Fixpoint lstrip (s : str) : str :=
  match s with
  | [] => []
  | c :: s' => if isspace c then lstrip s' else s
  end.

Definition rstrip (s : str) : str := rev (lstrip (rev s)).

(** [s.strip()]. *)
Definition strip (s : str) : str := rstrip (lstrip s).

Definition is_ascii (c : char) : bool := (c <? 128)%N.

Definition ascii_lower (c : char) : char :=
  if ((65 <=? c) && (c <=? 90))%N then (c + 32)%N else c.

Definition ascii_digit (c : char) : bool := ((48 <=? c) && (c <=? 57))%N.

(** What the parser takes from the interpreter it runs on. *)
Record interp := {
  (** [str.lower] of a string that is not all ASCII (the case mapping of
      the Unicode database, with its context rules) *)
  unicode_lower : str -> str;
  (** [str.isdigit] of one non-ASCII character *)
  unicode_isdigit : char -> bool;
  (** the value of a non-ASCII decimal digit, as [int] reads it *)
  unicode_decimal : char -> option N;
  (** [sys.get_int_max_str_digits()]: 0 is no limit *)
  int_max_str_digits : nat
}.

Section Str.

Variable py : interp.

(** [s.lower()]. *)
Definition lower (s : str) : str :=
  if forallb is_ascii s then map ascii_lower s else unicode_lower py s.

(** [c.isdigit()] for one character. *)
Definition isdigit (c : char) : bool :=
  if is_ascii c then ascii_digit c else unicode_isdigit py c.

Definition decimal_value (c : char) : option N :=
  if is_ascii c then (if ascii_digit c then Some (c - 48)%N else None)
  else unicode_decimal py c.

Fixpoint leading_digits (s : str) : nat :=
  match s with
  | [] => 0
  | c :: s' =>
      match decimal_value c with
      | Some _ => S (leading_digits s')
      | None => 0
      end
  end.

Fixpoint digits_value (acc : N) (s : str) : option N :=
  match s with
  | [] => Some acc
  | c :: s' =>
      match decimal_value c with
      | Some d => digits_value (10 * acc + d)%N s'
      | None => None
      end
  end.

(** [int(s)] on the strings the parser gives it, which hold digit
    characters only (the digit characters of a footer line; the digits of a
    page token): the sign, underscore and blank syntax of [int] is left
    out, and a string that is not a run of decimal digits is an invalid
    literal. An interpreter with a limit on the digits of a literal refuses
    a longer run of digits first. *)
Definition int (s : str) : result N :=
  let n := leading_digits s in
  if (0 <? int_max_str_digits py) && (int_max_str_digits py <? n)
  then Raise (ValueError (Exceeds_digit_limit n))
  else match s with
       | [] => Raise (ValueError (Invalid_literal s))
       | _ => match digits_value 0 s with
              | Some v => Ok v
              | None => Raise (ValueError (Invalid_literal s))
              end
       end.

End Str.

(** ** [bytes.decode('utf-8')] *)

Definition continuation (b : byte) : bool :=
  ((128 <=? Byte.to_N b) && (Byte.to_N b <=? 191))%N.

Definition between (lo hi : N) (b : byte) : bool :=
  ((lo <=? Byte.to_N b) && (Byte.to_N b <=? hi))%N.

Definition low6 (b : byte) : N := (Byte.to_N b - 128)%N.

(** The strict decoder: shortest forms only, no surrogates, nothing above
    U+10FFFF. [None] is [UnicodeDecodeError]. *)
Fixpoint utf8_decode (b : bytes) : option str :=
  match b with
  | [] => Some []
  | b0 :: r0 =>
      let n0 := Byte.to_N b0 in
      if (n0 <? 128)%N then option_map (cons n0) (utf8_decode r0)
      else if between 194 223 b0 then
        match r0 with
        | b1 :: r1 =>
            if continuation b1
            then option_map (cons ((n0 - 192) * 64 + low6 b1)%N)
                            (utf8_decode r1)
            else None
        | _ => None
        end
      else if between 224 239 b0 then
        match r0 with
        | b1 :: b2 :: r2 =>
            if between (if (n0 =? 224)%N then 160 else 128)
                       (if (n0 =? 237)%N then 159 else 191) b1
               && continuation b2
            then option_map
                   (cons ((n0 - 224) * 4096 + low6 b1 * 64 + low6 b2)%N)
                   (utf8_decode r2)
            else None
        | _ => None
        end
      else if between 240 244 b0 then
        match r0 with
        | b1 :: b2 :: b3 :: r3 =>
            if between (if (n0 =? 240)%N then 144 else 128)
                       (if (n0 =? 244)%N then 143 else 191) b1
               && continuation b2 && continuation b3
            then option_map
                   (cons ((n0 - 240) * 262144 + low6 b1 * 4096
                          + low6 b2 * 64 + low6 b3)%N)
                   (utf8_decode r3)
            else None
        | _ => None
        end
      else None
  end.

(** [b.decode('utf-8')]. *)
Definition decode (b : bytes) : result str :=
  match utf8_decode b with
  | Some s => Ok s
  | None => Raise UnicodeDecodeError
  end.

(** ** Regular expressions: the part of [re] the parser's patterns use

    A pattern is a sequence of items; every repetition in the parser's
    patterns is over a single character class. Matching backtracks in the
    order of [re]: a greedy repetition takes the most it can first, a lazy
    one the least. *)

Section Regex.

Variable A : Type.
(** the line feed, for [$] *)
Variable newline : A -> bool.

Inductive item :=
| One (p : A -> bool)                                  (* a literal, a class, a dot *)
| Many (lazy : bool) (lo : nat) (hi : option nat) (p : A -> bool)
                                                       (* p{lo,hi}, p*?: hi = None is no bound *)
| Bol                                                  (* ^ *)
| Eol.                                                 (* $ *)

Definition regex := list item.

Definition can_take (hi : option nat) : bool :=
  match hi with Some O => false | _ => true end.

(** [$] without MULTILINE: at the end, or before a line feed that ends
    the string. *)
Definition at_end (s : list A) : bool :=
  match s with
  | [] => true
  | [c] => newline c
  | _ => false
  end.

(** [p{lo,hi}] followed by the rest of the pattern, [k]. The value is the
    offset where the whole match ends. *)
Fixpoint many (k : nat -> list A -> option nat) (lazy : bool)
    (p : A -> bool) (lo : nat) (hi : option nat) (pos : nat) (s : list A)
    {struct s} : option nat :=
  let stop := match lo with O => k pos s | S _ => None end in
  let more :=
    match s with
    | c :: s' =>
        if p c && can_take hi
        then many k lazy p (pred lo) (option_map pred hi) (S pos) s'
        else None
    | [] => None
    end in
  if lazy
  then match stop with Some e => Some e | None => more end
  else match more with Some e => Some e | None => stop end.

(** The pattern [r] tried at offset [pos], where [s] is what is left of the
    subject: the offset where the match ends. *)
Fixpoint match_here (r : regex) (pos : nat) (s : list A) : option nat :=
  match r with
  | [] => Some pos
  | One p :: r' =>
      match s with
      | c :: s' => if p c then match_here r' (S pos) s' else None
      | [] => None
      end
  | Many lazy lo hi p :: r' => many (match_here r') lazy p lo hi pos s
  | Bol :: r' => match pos with O => match_here r' pos s | S _ => None end
  | Eol :: r' => if at_end s then match_here r' pos s else None
  end.

(** [re.match(r, s)]: the end of the match. *)
Definition re_match (r : regex) (s : list A) : option nat := match_here r 0 s.

Fixpoint search_from (r : regex) (pos : nat) (s : list A) : option (nat * nat) :=
  match match_here r pos s with
  | Some e => Some (pos, e)
  | None =>
      match s with
      | [] => None
      | _ :: s' => search_from r (S pos) s'
      end
  end.

(** [re.search(r, s).span()], or [None]. *)
Definition re_search (r : regex) (s : list A) : option (nat * nat) :=
  search_from r 0 s.

(** The spans of [r.finditer(s)] for a pattern that matches no empty
    string: the leftmost match, then the leftmost one that starts where it
    ended or later ([skip] characters of a match are still to pass). *)
Fixpoint finditer_from (r : regex) (pos skip : nat) (s : list A)
    : list (nat * nat) :=
  match s with
  | [] => []
  | _ :: s' =>
      match skip with
      | S k => finditer_from r (S pos) k s'
      | O =>
          match match_here r pos s with
          | Some e => (pos, e) :: finditer_from r (S pos) (e - pos - 1) s'
          | None => finditer_from r (S pos) 0 s'
          end
      end
  end.

Definition finditer (r : regex) (s : list A) : list (nat * nat) :=
  finditer_from r 0 0 s.

End Regex.

Arguments One {A} p.
Arguments Many {A} lazy lo hi p.
Arguments Bol {A}.
Arguments Eol {A}.

(** A pattern letter under IGNORECASE. In a [bytes] pattern only ASCII has
    case. In a [str] pattern a letter also matches the non-ASCII characters
    whose lower case it is: there are such characters for i, k and s only,
    and the parser's patterns have none of these letters. *)
Definition ignorecase (l c : N) : bool := (ascii_lower c =? ascii_lower l)%N.

Definition alnum (c : char) : bool :=
  ((97 <=? c) && (c <=? 122) || (65 <=? c) && (c <=? 90)
   || (48 <=? c) && (c <=? 57))%N.

Definition is_char (l c : char) : bool := (c =? l)%N.

Definition byte_is (l : N) (b : byte) : bool := (Byte.to_N b =? l)%N.

Definition any {A} (_ : A) : bool := true.

(** the page feed, [b'\x0c'] *)
Definition page_feed : byte := x0c.

Definition line_feed : char := 10%N.

(** [b'run[ ]*?date.*?\x0c'] with DOTALL and IGNORECASE. *)
Definition page_sep : regex byte :=
  map (fun l => One (fun b => ignorecase l (Byte.to_N b))) (lit "run")
  ++ [Many true 0 None (byte_is 32%N)]
  ++ map (fun l => One (fun b => ignorecase l (Byte.to_N b))) (lit "date")
  ++ [Many true 0 None any; One (byte_is 12%N)].

(** ['[0-9]{1,2}/[0-9]{1,2}/[0-9]{4,4}']. *)
Definition date_re : regex char :=
  [Many false 1 (Some 2) ascii_digit; One (is_char 47%N);
   Many false 1 (Some 2) ascii_digit; One (is_char 47%N);
   Many false 4 (Some 4) ascii_digit].

(** ['run\s*?date:\s*?[0-9]{1,2}/[0-9]{1,2}/[0-9]{4,4}'] with IGNORECASE. *)
Definition run_date_re : regex char :=
  map (fun l => One (ignorecase l)) (lit "run")
  ++ [Many true 0 None isspace]
  ++ map (fun l => One (ignorecase l)) (lit "date:")
  ++ [Many true 0 None isspace]
  ++ date_re.

(** ['page\s*?[0-9]{1,40}'] with IGNORECASE. *)
Definition page_re : regex char :=
  map (fun l => One (ignorecase l)) (lit "page")
  ++ [Many true 0 None isspace; Many false 1 (Some 40) ascii_digit].

(** ['^[a-zA-Z0-9]{6,6} [a-zA-Z0-9]{2,2} [a-zA-Z0-9]{1,1}$']. *)
Definition cusip_re : regex char :=
  [Bol; Many false 6 (Some 6) alnum; One (is_char 32%N);
   Many false 2 (Some 2) alnum; One (is_char 32%N);
   Many false 1 (Some 1) alnum; Eol].

Definition byte_newline (b : byte) : bool := byte_is 10%N b.
Definition char_newline (c : char) : bool := is_char line_feed c.

(** A pattern of plain characters, such as ['CUSIP NO']. *)
Definition literal (s : string) : regex char :=
  map (fun l => One (is_char l)) (lit s).

(** ** The parser *)

(** One entry of the securities index (SECURITY_SCHEMA): the dict that
    [parse_page] builds, key by key. *)
Record security := {
  cusip : str;
  issuer : str;
  description : str;
  date : str;
  page : N;
  optionable : bool;
  added : bool;
  deleted : bool
}.

(** What [subprocess.Popen(command, ...)] and [proc.communicate()] give:
    [OSError] when the program cannot be started, or the return code and
    the standard output. *)
Inductive process :=
| OSError
| Exited (returncode : Z) (stdout : bytes).

(** A local variable that may not have been assigned yet. *)
Inductive binding (A : Type) :=
| Unbound
| Bound (v : A).

Arguments Unbound {A}.
Arguments Bound {A} v.

Definition is_empty {A} (l : list A) : bool :=
  match l with [] => true | _ => false end.

(** [str(n)]. *)
Definition str_of_nat (n : nat) : string := NilZero.string_of_uint (Nat.to_uint n).

Section Parser.

Variable py : interp.
Variable World : Type.
Variable Popen : list string -> World -> process * World.

(** A call that runs external processes. *)
Definition io (A : Type) : Type := World -> result A * World.

(** The first [return] leaves with the output of [pdftotext]; the search
    for the header marker after the [try] block is never reached. *)
Definition is_first_page (pdf_file : string) (page_num : nat) : io bytes :=
  fun w =>
    let pn := str_of_nat page_num in
    let command :=
      ["pdftotext"; "-f"; pn; "-l"; pn; "-layout"; pdf_file; "-"]%string in
    match Popen command w with
    | (Exited returncode stdout, w') =>
        if (returncode =? 0)%Z then (Ok stdout, w')
        else (Raise (ValueError (Text "Malformed data. Parse failed.")), w')
    | (OSError, w') =>
        (Raise (RuntimeError (Text
           "It looks like you are not running Linux or dont have pdftotext installed")),
         w')
    end.

(** [for i in candidates: if is_first_page(pdf_file, i): return str(i)],
    then the [raise]: a [bytes] value is true when it is not empty. *)
Fixpoint find_first_page_in (pdf_file : string) (candidates : list nat)
    : io string :=
  fun w =>
    match candidates with
    | [] => (Raise (ValueError (Text "More than two header pages detected")), w)
    | i :: rest =>
        match is_first_page pdf_file i w with
        | (Ok out, w') =>
            if negb (is_empty out) then (Ok (str_of_nat i), w')
            else find_first_page_in pdf_file rest w'
        | (Raise e, w') => (Raise e, w')
        end
    end.

(** [range(1, 4)] is [seq 1 3]. *)
Definition find_first_page (pdf_file : string) : io string :=
  find_first_page_in pdf_file (seq 1 3).

Definition get_pdf_text_bytes (pdf_file : string) : io bytes :=
  fun w =>
    match find_first_page pdf_file w with
    | (Raise e, w') => (Raise e, w')
    | (Ok first_page, w') =>
        let command :=
          ["pdftotext"; "-f"; first_page; "-layout"; pdf_file; "-"]%string in
        match Popen command w' with
        | (Exited returncode stdout, w'') =>
            if (returncode =? 0)%Z then (Ok stdout, w'')
            else (Raise (ValueError (Text "Malformed data. Parse failed.")), w'')
        | (OSError, w'') =>
            (Raise (RuntimeError (Text
               "It looks like you are not running Linux or dont have pdftotext installed")),
             w'')
        end
    end.

(** The chunks the generator yields over [pdf_text], in the order it
    yields them. *)
Definition pages_of (pdf_text : bytes) : list bytes :=
  map (fun page => slice pdf_text (fst page) (snd page))
      (finditer byte_newline page_sep pdf_text).

(** The generator, run to its end: it gets the text when it is first
    advanced and runs no process after that. *)
Definition yield_pages_as_bytes (pdf_file : string) : io (list bytes) :=
  fun w =>
    match get_pdf_text_bytes pdf_file w with
    | (Raise e, w') => (Raise e, w')
    | (Ok pdf_text, w') => (Ok (pages_of pdf_text), w')
    end.

Definition validate_header (utf_list : list str) : result unit :=
  malformed <-
    or_else (l <- index utf_list 0 ;;
             Ok (negb (contains (lit "run date") (lower py l))))
   (or_else (l <- index utf_list 0 ;;
             Ok (negb (contains (lit "page") (lower py l))))
   (or_else (l <- index utf_list 1 ;;
             Ok (negb (contains (lit "run time") (lower py l))))
   (or_else (l <- index utf_list 1 ;;
             Ok (negb (contains (lit "year") (lower py l))))
   (or_else (l <- index utf_list 2 ;; Ok (negb (is_empty l)))
   (or_else (l <- index utf_list 3 ;;
             Ok (negb (contains (lit "CUSIP NO") l)))
   (or_else (l <- index utf_list 3 ;;
             Ok (negb (contains (lit "ISSUER NAME") l)))
   (or_else (l <- index utf_list 3 ;;
             Ok (negb (contains (lit "ISSUER DESCRIPTION") l)))
            (l <- index utf_list 3 ;;
             Ok (negb (contains (lit "STATUS") l)))))))))) ;;
  if malformed then Raise (ValueError (Text "Malformed page header."))
  else Ok tt.

(** [m.start()] on [m = None] is the [AttributeError]. The second search
    runs over [line], and its span is taken out of [date_full]. *)
Definition extract_date (line : str) : result str :=
  match re_search char_newline run_date_re line with
  | None => Raise (AttributeError "start")
  | Some (m_start, m_end) =>
      let date_full := slice line m_start m_end in
      match re_search char_newline date_re line with
      | None => Raise (AttributeError "start")
      | Some (m_start', m_end') => Ok (slice date_full m_start' m_end')
      end
  end.

Definition extract_pagenum (line : str) : result N :=
  match re_search char_newline page_re line with
  | None => Raise (AttributeError "start")
  | Some (m_start, m_end) =>
      let pagenum := slice line m_start m_end in
      let pagenum := strip (replace (lit "page") [] (lower py pagenum)) in
      int py pagenum
  end.

(** [re.search(label, line).span()]. *)
Definition label_span (label : string) (line : str) : result (nat * nat) :=
  match re_search char_newline (literal label) line with
  | Some span => Ok span
  | None => Raise (AttributeError "span")
  end.

(** The dict that the body of [for line in lines[4:]] builds from a line
    that is neither blank nor the footer. *)
Definition security_of (date_ : str) (pagenum : N)
    (cusip_s issuer_s descrp_s : nat) (line : str) : security :=
  let cusip_ := slice line cusip_s issuer_s in
  let issuer_ := strip (slice line issuer_s descrp_s) in
  let description_ := slice_from line descrp_s in
  {| cusip := strip (replace (lit "*") [] cusip_);
     issuer := issuer_;
     description :=
       strip (replace (lit "DELETED") []
                (replace (lit "ADDED") [] description_));
     date := date_;
     page := pagenum;
     optionable := contains (lit "*") cusip_;
     added := contains (lit "ADDED") description_;
     deleted := contains (lit "DELETED") description_ |}.

(** The body of [for line in lines[4:]], with the two variables it
    updates. [MalformedDataError] is no name of the module nor a builtin:
    evaluating it is the [NameError]. *)
Fixpoint parse_lines (date_ : str) (pagenum : N)
    (cusip_s issuer_s descrp_s : nat) (lines : list str)
    (securities : list security) (expected_lines : option N)
    : result (list security * option N) :=
  match lines with
  | [] => Ok (securities, expected_lines)
  | line :: rest =>
      if is_empty (strip line)
      then parse_lines date_ pagenum cusip_s issuer_s descrp_s rest
             securities expected_lines
      else if contains (lit "total count") (lower py line)
      then n <- int py (filter (isdigit py) line) ;;
           parse_lines date_ pagenum cusip_s issuer_s descrp_s rest
             securities (Some n)
      else
        let security_ :=
          security_of date_ pagenum cusip_s issuer_s descrp_s line in
        match re_match char_newline cusip_re (cusip security_) with
        | None => Raise (NameError "MalformedDataError")
        | Some _ =>
            parse_lines date_ pagenum cusip_s issuer_s descrp_s rest
              (securities ++ [security_]) expected_lines
        end
  end.

(** [parse_page] from [lines = ...split('\n')] on, [text] being the decoded
    page. *)
Definition parse_text (text : str) : result (list security * option N) :=
  let lines := split line_feed text in
  _ <- validate_header (firstn 4 lines) ;;
  line0 <- index lines 0 ;;
  date_ <- extract_date line0 ;;
  line0 <- index lines 0 ;;
  pagenum <- extract_pagenum line0 ;;
  line3 <- index lines 3 ;;
  cusip_span <- label_span "CUSIP NO" line3 ;;
  line3 <- index lines 3 ;;
  issuer_span <- label_span "ISSUER NAME" line3 ;;
  line3 <- index lines 3 ;;
  descrp_span <- label_span "ISSUER DESCRIPTION" line3 ;;
  parse_lines date_ pagenum (fst cusip_span) (fst issuer_span)
    (fst descrp_span) (skipn 4 lines) [] None.

(** [bytes_arr[-1]] is the last byte and [bytes_arr[:-1]] the bytes before
    it. *)
Definition parse_page (bytes_arr : bytes)
    : result (list security * option N) :=
  final <- last_item bytes_arr ;;
  if negb (Byte.eqb final page_feed)
  then Raise (ValueError (Text "Page feed should be final byte."))
  else
    text <- decode (removelast bytes_arr) ;;
    parse_text text.

(** [for page in yield_pages_as_bytes(pdf_file)]: [expected_lines] is
    assigned in the body only. *)
Fixpoint parse_pages (pages : list bytes) (securities : list security)
    (expected_lines : binding (option N))
    : result (list security * binding (option N)) :=
  match pages with
  | [] => Ok (securities, expected_lines)
  | page_ :: rest =>
      r <- parse_page page_ ;;
      parse_pages rest (securities ++ fst r) (Bound (snd r))
  end.

(** [len(securities) != expected_lines]: an [int] is never equal to
    [None]. *)
Definition differs (n : nat) (expected_lines : option N) : bool :=
  match expected_lines with
  | None => true
  | Some e => negb (N.of_nat n =? e)%N
  end.

(** What [parse_pdf_index] does with the chunks of the generator. *)
Definition parse_document (pages : list bytes) : result (list security) :=
  r <- parse_pages pages [] Unbound ;;
  let securities := fst r in
  match snd r with
  | Unbound => Raise (UnboundLocalError "expected_lines")
  | Bound expected_lines =>
      if differs (length securities) expected_lines
      then Raise (ValueError
                    (Total_does_not_match (N.of_nat (length securities))
                                          expected_lines))
      else Ok securities
  end.

Definition parse_pdf_index (pdf_file : string) : io (list security) :=
  fun w =>
    match yield_pages_as_bytes pdf_file w with
    | (Raise e, w') => (Raise e, w')
    | (Ok pages, w') => (parse_document pages, w')
    end.

End Parser.

Unset Implicit Arguments.

(** * The vocabulary of the claims *)

(** [label] occurs in [line] at offset [i]. *)
Definition occurs_at (label line : str) (i : nat) : Prop :=
  exists pre post, line = pre ++ label ++ post /\ length pre = i.

(** [i] is the offset of the first occurrence of [label] in [line]. *)
Definition first_at (label line : str) (i : nat) : Prop :=
  occurs_at label line i /\ forall j, j < i -> ~ occurs_at label line j.

Section Matches.

Variable A : Type.
Variable newline : A -> bool.

(** [matches r pos m rest]: at offset [pos] of the subject, followed by
    [rest], the string [m] is of the shape of the pattern [r]. *)
Inductive matches : regex A -> nat -> list A -> list A -> Prop :=
| matches_nil pos rest : matches [] pos [] rest
| matches_one p r pos c m rest :
    p c = true ->
    matches r (S pos) m rest ->
    matches (One p :: r) pos (c :: m) rest
| matches_many lazy lo hi p r pos t m rest :
    forallb p t = true ->
    lo <= length t ->
    (forall h, hi = Some h -> length t <= h) ->
    matches r (pos + length t) m rest ->
    matches (Many lazy lo hi p :: r) pos (t ++ m) rest
| matches_bol r m rest :
    matches r 0 m rest ->
    matches (Bol :: r) 0 m rest
| matches_eol r pos m rest :
    at_end newline (m ++ rest) = true ->
    matches r pos m rest ->
    matches (Eol :: r) pos m rest.

(** What [match_here r] promises when it answers. *)
Definition sound (r : regex A) (k : nat -> list A -> option nat) : Prop :=
  forall pos s e,
    k pos s = Some e ->
    exists m rest, s = m ++ rest /\ e = pos + length m /\ matches r pos m rest.

End Matches.

Arguments matches {A} newline r pos m rest.

(** The letters of [word], in either case. *)
Definition spells (word : string) (w : str) : Prop :=
  map ascii_lower w = lit word.

(** A page chunk: the marker [run date] in either case, any number of
    blanks between the two words, and everything up to a page feed. *)
Definition page_chunk (chunk : bytes) : Prop :=
  exists run blanks date_ body,
    chunk = run ++ blanks ++ date_ ++ body ++ [page_feed] /\
    spells "run" (map Byte.to_N run) /\
    Forall (eq x20) blanks /\
    spells "date" (map Byte.to_N date_).

(** A [run date: D/D/YYYY] token: the two words in either case, any
    white space (none too) after each, one or two digits for the month and
    for the day, four for the year. *)
Definition run_date_token (t : str) : Prop :=
  exists run ws1 date_ ws2 m d y,
    t = run ++ ws1 ++ date_ ++ ws2 ++ m ++ [47%N] ++ d ++ [47%N] ++ y /\
    spells "run" run /\ forallb isspace ws1 = true /\
    spells "date:" date_ /\ forallb isspace ws2 = true /\
    forallb ascii_digit m = true /\ 1 <= length m <= 2 /\
    forallb ascii_digit d = true /\ 1 <= length d <= 2 /\
    forallb ascii_digit y = true /\ length y = 4.

(** [line] has such a token somewhere. *)
Definition has_run_date_token (line : str) : Prop :=
  exists pre t post, line = pre ++ t ++ post /\ run_date_token t.

(** [chunks] lie in [text] one after the other, in this order, with any
    bytes before, between and after them. *)
Inductive in_order {A : Type} : list (list A) -> list A -> Prop :=
| in_order_nil text : in_order [] text
| in_order_cons gap chunk chunks text :
    in_order chunks text ->
    in_order (chunk :: chunks) (gap ++ chunk ++ text).

(** [s] has [word] as a run of consecutive characters. *)
Definition has_word (word : string) (s : str) : Prop :=
  exists pre post, s = pre ++ lit word ++ post.

Section Conditions.

Variable py : interp.

(** The nine tests of [validate_header], as one boolean. *)
Definition header_ok (l0 l1 l2 l3 : str) : bool :=
  contains (lit "run date") (lower py l0)
  && contains (lit "page") (lower py l0)
  && contains (lit "run time") (lower py l1)
  && contains (lit "year") (lower py l1)
  && is_empty l2
  && contains (lit "CUSIP NO") l3
  && contains (lit "ISSUER NAME") l3
  && contains (lit "ISSUER DESCRIPTION") l3
  && contains (lit "STATUS") l3.

(** A line of the body that is neither blank nor the footer. *)
Definition is_data_line (line : str) : bool :=
  negb (is_empty (strip line))
  && negb (contains (lit "total count") (lower py line)).

End Conditions.

(** The CUSIP of a record has the shape of [cusip_re]. *)
Definition cusip_ok (s : security) : Prop :=
  re_match char_newline cusip_re (cusip s) <> None.

(** A CUSIP as the pattern of [parse_page] wants it: six letters or
    digits, a blank, two letters or digits, a blank, one letter or digit. *)
Definition well_formed_cusip (c : str) : Prop :=
  exists issuer_ issue check,
    c = issuer_ ++ [32%N] ++ issue ++ [32%N] ++ check /\
    length issuer_ = 6 /\ length issue = 2 /\ length check = 1 /\
    forallb alnum issuer_ = true /\ forallb alnum issue = true /\
    forallb alnum check = true.

(** The conditions of the header validator on the four header lines. *)
Definition header_conforms (py : interp) (l0 l1 l2 l3 : str) : Prop :=
  has_word "run date" (lower py l0) /\ has_word "page" (lower py l0) /\
  has_word "run time" (lower py l1) /\ has_word "year" (lower py l1) /\
  l2 = [] /\
  has_word "CUSIP NO" l3 /\ has_word "ISSUER NAME" l3 /\
  has_word "ISSUER DESCRIPTION" l3 /\ has_word "STATUS" l3.

(** The fields of a record as slices of its line: the CUSIP column from
    [cusip_s] to [issuer_s] (the marker and blanks removed), the issuer
    column from [issuer_s] to [descrp_s] (blanks removed), the description
    column from [descrp_s] to the end of the line (the status words and
    blanks removed). *)
Definition sliced_at (cusip_s issuer_s descrp_s : nat) (line : str)
    (s : security) : Prop :=
  cusip s = strip (replace (lit "*") [] (slice line cusip_s issuer_s)) /\
  issuer s = strip (slice line issuer_s descrp_s) /\
  description s =
    strip (replace (lit "DELETED") []
             (replace (lit "ADDED") [] (slice_from line descrp_s))).

(** The three booleans of a record against the raw slices of its line. *)
Definition flagged_at (cusip_s issuer_s descrp_s : nat) (line : str)
    (s : security) : Prop :=
  (optionable s = true <-> In 42%N (slice line cusip_s issuer_s)) /\
  (added s = true <-> has_word "ADDED" (slice_from line descrp_s)) /\
  (deleted s = true <-> has_word "DELETED" (slice_from line descrp_s)) /\
  description s =
    strip (replace (lit "DELETED") []
             (replace (lit "ADDED") [] (slice_from line descrp_s))).

(** The count that the specification keeps (4.6): the last declared count
    that is not absent, over the pages in order. *)
Definition spec_retained_count (declared : list (option N)) : option N :=
  fold_left (fun kept d => match d with Some n => Some n | None => kept end)
            declared None.

(** ** Lines, pages and runs *)

(** No [r], no [R] and no digit: text that can stand before the token
    without the patterns of [extract_date] starting in it. *)
Definition margin (pre : str) : Prop :=
  Forall (fun c => c <> 114%N /\ c <> 82%N /\ ascii_digit c = false) pre.

(** The number that a run of ASCII digits spells. *)
Definition decimal (ds : str) : N :=
  fold_left (fun acc c => (10 * acc + (c - 48))%N) ds 0%N.

(** A [page N] token: the word in either case, any white space (none
    too), one to forty digits. *)
Definition page_token (t : str) : Prop :=
  exists w ws ds,
    t = w ++ ws ++ ds /\
    spells "page" w /\ forallb isspace ws = true /\
    forallb ascii_digit ds = true /\ 1 <= length ds <= 40.

(** [line] has such a token somewhere. *)
Definition has_page_token (line : str) : Prop :=
  exists pre t post, line = pre ++ t ++ post /\ page_token t.

(** A line of the body that is the footer: not blank, with "total count"
    in either case. *)
Definition is_footer_line (py : interp) (line : str) : bool :=
  negb (is_empty (strip line))
  && contains (lit "total count") (lower py line).

(** No white space at either end. *)
Definition trimmed (s : str) : Prop :=
  (forall c t, s = c :: t -> isspace c = false) /\
  (forall t c, s = t ++ [c] -> isspace c = false).

(** A whole page: a page chunk with no page feed but its last byte. *)
Definition whole_page (chunk : bytes) : Prop :=
  exists run blanks date_ body,
    chunk = run ++ blanks ++ date_ ++ body ++ [page_feed] /\
    spells "run" (map Byte.to_N run) /\
    Forall (eq x20) blanks /\
    spells "date" (map Byte.to_N date_) /\
    ~ In page_feed body.

(** A [Popen] that keeps the list of its runs: the command and what came
    of it. *)
Definition logged {World : Type}
    (Popen : list string -> World -> process * World)
    (command : list string) (w : World * list (list string * process))
    : process * (World * list (list string * process)) :=
  let (p, w') := Popen command (fst w) in
  (p, (w', snd w ++ [(command, p)])).

(** The command line that prints page [page_num] alone. *)
Definition one_page_command (pdf_file : string) (page_num : nat)
    : list string :=
  ["pdftotext"; "-f"; str_of_nat page_num; "-l"; str_of_nat page_num;
   "-layout"; pdf_file; "-"]%string.

(** The command line that prints the file from page [first_page] on. *)
Definition from_page_command (pdf_file : string) (first_page : string)
    : list string :=
  ["pdftotext"; "-f"; first_page; "-layout"; pdf_file; "-"]%string.

(** ** Sample pages and files *)

(** An interpreter for ASCII text: no table is consulted on it. *)
Definition ascii_python : interp := {|
  unicode_lower := fun s => s;
  unicode_isdigit := fun _ => false;
  unicode_decimal := fun _ => None;
  int_max_str_digits := 4300
|}.

(** A line of text and its line feed. *)
Definition text_line (s : string) : bytes := blit s ++ [x0a].

Definition sample_header : bytes :=
  text_line "Run Date: 1/2/2020  Page 1"
  ++ text_line "Run Time: 10:00  Year 2020"
  ++ text_line ""
  ++ text_line "CUSIP NO     ISSUER NAME         ISSUER DESCRIPTION   STATUS".

(** A page with one security and the footer. *)
Definition page_with_footer : bytes :=
  sample_header
  ++ text_line "123456 78 9  ACME CORP           WIDGET MAKER"
  ++ text_line "total count: 1"
  ++ [page_feed].

(** A page with the header only. *)
Definition page_without_footer : bytes := sample_header ++ [page_feed].

(** A page whose security is optionable, added and deleted. *)
Definition page_with_marks : bytes :=
  sample_header
  ++ text_line "123456 78 9* ACME CORP           WIDGET ADDED MAKER DELETED"
  ++ [page_feed].

(** A page whose CUSIP has five characters in its first group. *)
Definition page_with_bad_cusip : bytes :=
  sample_header
  ++ text_line "12345 78 9   ACME CORP           WIDGET MAKER"
  ++ text_line "total count: 1"
  ++ [page_feed].

(** A page whose first line has the words of the header and no date. *)
Definition page_without_date : bytes :=
  text_line "Run Date  Page 1"
  ++ text_line "Run Time: 10:00  Year 2020"
  ++ text_line ""
  ++ text_line "CUSIP NO     ISSUER NAME         ISSUER DESCRIPTION   STATUS"
  ++ [page_feed].

(** A page whose line 3 has no "STATUS". *)
Definition page_without_status : bytes :=
  text_line "Run Date: 1/2/2020  Page 1"
  ++ text_line "Run Time: 10:00  Year 2020"
  ++ text_line ""
  ++ text_line "CUSIP NO     ISSUER NAME         ISSUER DESCRIPTION"
  ++ text_line "123456 78 9  ACME CORP           WIDGET MAKER"
  ++ text_line "total count: 1"
  ++ [page_feed].

(** A cover page: text without the marker. *)
Definition cover_page : bytes := text_line "LIST OF SECTION 13F SECURITIES" ++ [page_feed].

(** The record of [page_with_footer]. *)
Definition sample_security : security := {|
  cusip := lit "123456 78 9";
  issuer := lit "ACME CORP";
  description := lit "WIDGET MAKER";
  date := lit "1/2/2020";
  page := 1;
  optionable := false;
  added := false;
  deleted := false
|}.

(** A [pdftotext] that prints [pdf_text] for every command; the world
    counts the runs. *)
Definition prints (pdf_text : bytes) (command : list string) (runs : nat)
    : process * nat :=
  (Exited 0 pdf_text, S runs).

(** A file with one cover page before the page of the index: what
    [pdftotext] prints for one page ([-f n -l n]) and from a page to the
    end ([-f n]). *)
Definition pdftotext_with_cover (command : list string) (runs : nat)
    : process * nat :=
  (match command with
   | [_; _; first; _; _; _; _; _] =>
       if String.eqb first "1" then Exited 0 cover_page
       else if String.eqb first "2" then Exited 0 page_with_footer
       else Exited 0 []
   | [_; _; first; _; _; _] =>
       if String.eqb first "1"
       then Exited 0 (cover_page ++ page_with_footer)
       else if String.eqb first "2" then Exited 0 page_with_footer
       else Exited 0 []
   | _ => Exited 1 []
   end, S runs).

(** * Facts about the [str] methods *)

Lemma startswith_iff (p s : str) :
  startswith p s = true <-> exists post, s = p ++ post.
Proof.
  revert s; induction p as [|a p IH]; intros s; simpl.
  - split; eauto.
  - destruct s as [|b s]; split; intros H; try discriminate.
    + destruct H as [post H]; discriminate.
    + apply andb_true_iff in H as [H1 H2].
      apply N.eqb_eq in H1; subst b.
      apply IH in H2 as [post ->]; eauto.
    + destruct H as [post H]; injection H as -> ->.
      rewrite N.eqb_refl; simpl; apply IH; eauto.
Qed.

Lemma occurs_at_0 (label line : str) :
  occurs_at label line 0 <-> startswith label line = true.
Proof.
  rewrite startswith_iff; split.
  - intros (pre & post & -> & Hl).
    destruct pre; [simpl; eauto | discriminate].
  - intros [post ->]; exists [], post; auto.
Qed.

Lemma occurs_at_S (label : str) (c : char) (line : str) (i : nat) :
  occurs_at label (c :: line) (S i) <-> occurs_at label line i.
Proof.
  split.
  - intros (pre & post & H & Hl).
    destruct pre as [|c' pre]; [discriminate|].
    injection H as -> ->; injection Hl as <-.
    exists pre, post; auto.
  - intros (pre & post & -> & <-).
    exists (c :: pre), post; auto.
Qed.

Lemma occurs_at_nil (label : str) (i : nat) :
  occurs_at label [] (S i) -> False.
Proof.
  intros (pre & post & H & Hl); destruct pre; discriminate.
Qed.

Lemma find_first_at (label line : str) (i : nat) :
  find label line = Some i -> first_at label line i.
Proof.
  revert i; induction line as [|c line IH]; intros i.
  - simpl. destruct (startswith label []) eqn:E; [|discriminate].
    intros [= <-]; split; [now apply occurs_at_0 | intros j Hj; lia].
  - simpl. destruct (startswith label (c :: line)) eqn:E.
    + intros [= <-]; split; [now apply occurs_at_0 | intros j Hj; lia].
    + destruct (find label line) as [k|]; [|discriminate].
      intros [= <-]. destruct (IH k eq_refl) as [H1 H2].
      split; [now apply occurs_at_S|].
      intros [|j] Hj Hocc.
      * apply occurs_at_0 in Hocc; congruence.
      * apply occurs_at_S in Hocc. apply (H2 j); [lia | assumption].
Qed.

Lemma find_none (label line : str) :
  find label line = None -> forall i, ~ occurs_at label line i.
Proof.
  induction line as [|c line IH]; simpl.
  - destruct (startswith label []) eqn:E; [discriminate|].
    intros _ [|i] H; [apply occurs_at_0 in H; congruence|].
    now apply occurs_at_nil in H.
  - destruct (startswith label (c :: line)) eqn:E; [discriminate|].
    destruct (find label line) as [k|] eqn:F; [discriminate|].
    intros _ [|i] H; [apply occurs_at_0 in H; congruence|].
    apply occurs_at_S in H. now apply (IH eq_refl i).
Qed.

(** [sub in s] holds exactly when [s] has [sub] as a run of consecutive
    characters. *)
Lemma contains_iff (sub s : str) :
  contains sub s = true <-> exists pre post, s = pre ++ sub ++ post.
Proof.
  unfold contains; destruct (find sub s) as [i|] eqn:F; split; intros H;
    try reflexivity; try discriminate.
  - destruct (find_first_at _ _ _ F) as [(pre & post & -> & _) _]; eauto.
  - destruct H as (pre & post & ->).
    exfalso; apply (find_none _ _ F (length pre)); exists pre, post; auto.
Qed.

Lemma contains_char (c : char) (s : str) :
  contains [c] s = true <-> In c s.
Proof.
  rewrite contains_iff; split.
  - intros (pre & post & ->); apply in_or_app; right; left; reflexivity.
  - intros H; apply in_split in H as (pre & post & ->).
    exists pre, post; reflexivity.
Qed.

(** * What a match of a pattern looks like *)

Section RegexFacts.

Variable A : Type.
Variable newline : A -> bool.

Lemma many_unfold k lazy p lo hi pos (s : list A) :
  many k lazy p lo hi pos s =
  let stop := match lo with O => k pos s | S _ => None end in
  let more :=
    match s with
    | c :: s' =>
        if p c && can_take hi
        then many k lazy p (pred lo) (option_map pred hi) (S pos) s'
        else None
    | [] => None
    end in
  if lazy
  then match stop with Some e => Some e | None => more end
  else match more with Some e => Some e | None => stop end.
Proof. destruct s; reflexivity. Qed.

Lemma many_sound (r : regex A) k :
  sound A newline r k ->
  forall lazy p s lo hi pos e,
    many k lazy p lo hi pos s = Some e ->
    exists t m rest,
      s = t ++ m ++ rest /\ e = pos + length t + length m /\
      forallb p t = true /\ lo <= length t /\
      (forall h, hi = Some h -> length t <= h) /\
      matches newline r (pos + length t) m rest.
Proof.
  intros Hk lazy p s; induction s as [|c s IH]; intros lo hi pos e H;
    rewrite many_unfold in H; cbv zeta in H.
  - assert (Hstop : match lo with O => k pos [] | S _ => None end = Some e).
    { destruct lazy; [|exact H].
      destruct (match lo with O => k pos [] | S _ => None end);
        [exact H | discriminate]. }
    destruct lo; [|discriminate].
    apply Hk in Hstop as (m & rest & E & -> & Hm).
    exists [], m, rest; simpl; rewrite !Nat.add_0_r.
    repeat split; auto; intros; lia.
  - assert (Hcases :
      match lo with O => k pos (c :: s) | S _ => None end = Some e \/
      (p c && can_take hi = true /\
       many k lazy p (pred lo) (option_map pred hi) (S pos) s = Some e)).
    { destruct (match lo with O => k pos (c :: s) | S _ => None end) as [e0|];
        destruct (p c && can_take hi);
        destruct (many k lazy p (pred lo) (option_map pred hi) (S pos) s);
        destruct lazy; try discriminate; auto. }
    destruct Hcases as [Hstop | [Hp Hmore]].
    + destruct lo; [|discriminate].
      apply Hk in Hstop as (m & rest & E & -> & Hm).
      exists [], m, rest; simpl; rewrite !Nat.add_0_r.
      repeat split; auto; intros; lia.
    + apply IH in Hmore as (t & m & rest & -> & -> & Ht & Hlo & Hhi & Hm).
      apply andb_true_iff in Hp as [Hp Hcan].
      exists (c :: t), m, rest; simpl.
      repeat split; auto.
      * lia.
      * now rewrite Hp.
      * lia.
      * intros h ->. destruct h; [discriminate|].
        specialize (Hhi h eq_refl); lia.
      * now replace (pos + S (length t)) with (S pos + length t) by lia.
Qed.

Lemma match_here_sound (r : regex A) : sound A newline r (match_here newline r).
Proof.
  induction r as [|i r IH]; intros pos s e H; simpl in H.
  - injection H as <-. exists [], s; simpl; rewrite Nat.add_0_r.
    repeat split; constructor.
  - destruct i as [p | lazy lo hi p | |].
    + destruct s as [|c s]; [discriminate|].
      destruct (p c) eqn:Hp; [|discriminate].
      apply IH in H as (m & rest & -> & -> & Hm).
      exists (c :: m), rest; simpl; repeat split; [lia|].
      now constructor.
    + apply (many_sound r _ IH) in H
        as (t & m & rest & -> & -> & Ht & Hlo & Hhi & Hm).
      exists (t ++ m), rest; rewrite <- app_assoc, length_app.
      repeat split; [lia|]. now constructor.
    + destruct pos; [|discriminate].
      apply IH in H as (m & rest & -> & -> & Hm).
      exists m, rest; repeat split. now constructor.
    + destruct (at_end newline s) eqn:He; [|discriminate].
      apply IH in H as (m & rest & -> & -> & Hm).
      exists m, rest; repeat split. now constructor.
Qed.

(** A span that [re.search] returns is a match. *)
Lemma search_from_sound (r : regex A) (s : list A) :
  forall pos a b,
    search_from newline r pos s = Some (a, b) ->
    exists pre m rest,
      s = pre ++ m ++ rest /\ a = pos + length pre /\ b = a + length m /\
      matches newline r a m rest.
Proof.
  induction s as [|c s IH]; intros pos a b H; simpl in H.
  - destruct (match_here newline r pos []) as [e|] eqn:M; [|discriminate].
    injection H as <- <-.
    apply match_here_sound in M as (m & rest & E & -> & Hm).
    exists [], m, rest; simpl; rewrite Nat.add_0_r; auto.
  - destruct (match_here newline r pos (c :: s)) as [e|] eqn:M.
    + injection H as <- <-.
      apply match_here_sound in M as (m & rest & E & -> & Hm).
      exists [], m, rest; simpl; rewrite Nat.add_0_r; auto.
    + apply IH in H as (pre & m & rest & -> & -> & -> & Hm).
      exists (c :: pre), m, rest; simpl.
      repeat split; auto; try lia.
      all: now replace (pos + S (length pre)) with (S pos + length pre) by lia.
Qed.

End RegexFacts.


Section Shapes.

Variable A : Type.
Variable newline : A -> bool.

Lemma matches_nil_inv pos (m rest : list A) :
  matches newline [] pos m rest -> m = [].
Proof. inversion 1; reflexivity. Qed.

Lemma matches_one_inv p r pos (m rest : list A) :
  matches newline (One p :: r) pos m rest ->
  exists c m', m = c :: m' /\ p c = true /\ matches newline r (S pos) m' rest.
Proof. inversion 1; subst; eauto. Qed.

Lemma matches_many_inv lazy lo hi p r pos (m rest : list A) :
  matches newline (Many lazy lo hi p :: r) pos m rest ->
  exists t m',
    m = t ++ m' /\ forallb p t = true /\ lo <= length t /\
    (forall h, hi = Some h -> length t <= h) /\
    matches newline r (pos + length t) m' rest.
Proof. inversion 1; subst; eauto 10. Qed.

Lemma matches_bol_inv r pos (m rest : list A) :
  matches newline (Bol :: r) pos m rest ->
  pos = 0 /\ matches newline r pos m rest.
Proof. inversion 1; subst; auto. Qed.

Lemma matches_eol_inv r pos (m rest : list A) :
  matches newline (Eol :: r) pos m rest ->
  at_end newline (m ++ rest) = true /\ matches newline r pos m rest.
Proof. inversion 1; subst; auto. Qed.

(** A run of pattern letters matches as many characters, letter by
    letter. *)
Lemma matches_letters (f : N -> A -> bool) (ls : list N) r :
  forall pos (m rest : list A),
    matches newline (map (fun l => One (f l)) ls ++ r) pos m rest ->
    exists w m',
      m = w ++ m' /\ Forall2 (fun l c => f l c = true) ls w /\
      matches newline r (pos + length ls) m' rest.
Proof.
  induction ls as [|l ls IH]; intros pos m rest H; simpl in H.
  - exists [], m; simpl; rewrite Nat.add_0_r; auto.
  - apply matches_one_inv in H as (c & m1 & -> & Hc & H).
    apply IH in H as (w & m' & -> & Hw & H).
    exists (c :: w), m'; simpl; repeat split; auto.
    now replace (pos + S (length ls)) with (S pos + length ls) by lia.
Qed.

End Shapes.

Lemma ignorecase_spells (ls w : str) :
  Forall2 (fun l c => ignorecase l c = true) ls w ->
  map ascii_lower w = map ascii_lower ls.
Proof.
  induction 1 as [|l c ls w H _ IH]; simpl; [reflexivity|].
  apply N.eqb_eq in H; congruence.
Qed.

Lemma ignorecase_bytes_spells (ls : str) (w : bytes) :
  Forall2 (fun l b => ignorecase l (Byte.to_N b) = true) ls w ->
  map ascii_lower (map Byte.to_N w) = map ascii_lower ls.
Proof.
  induction 1 as [|l c ls w H _ IH]; simpl; [reflexivity|].
  apply N.eqb_eq in H; congruence.
Qed.

Lemma byte_is_eq (n : N) (b c : byte) :
  Byte.to_N c = n -> byte_is n b = true -> b = c.
Proof.
  intros Hc H; apply N.eqb_eq in H.
  assert (E : Some b = Some c)
    by (rewrite <- (Byte.of_to_N b), <- (Byte.of_to_N c); congruence).
  now injection E.
Qed.

Lemma page_sep_shape pos (m rest : bytes) :
  matches byte_newline page_sep pos m rest -> page_chunk m.
Proof.
  unfold page_sep; intros H.
  apply matches_letters in H as (run & m1 & -> & Hrun & H).
  apply matches_many_inv in H as (blanks & m2 & -> & Hb & _ & _ & H).
  apply matches_letters in H as (date_ & m3 & -> & Hdate & H).
  apply matches_many_inv in H as (body & m4 & -> & _ & _ & _ & H).
  apply matches_one_inv in H as (c & m5 & -> & Hc & H).
  apply matches_nil_inv in H; subst m5.
  apply (byte_is_eq 12 c x0c eq_refl) in Hc; subst c.
  exists run, blanks, date_, body; repeat split.
  - now apply ignorecase_bytes_spells in Hrun.
  - apply Forall_forall; intros b Hin.
    rewrite forallb_forall in Hb; specialize (Hb b Hin).
    symmetry; now apply (byte_is_eq 32 b x20 eq_refl).
  - now apply ignorecase_bytes_spells in Hdate.
Qed.

Lemma run_date_shape pos (m rest : str) :
  matches char_newline run_date_re pos m rest -> run_date_token m.
Proof.
  unfold run_date_re, date_re; intros H.
  apply matches_letters in H as (run & m1 & -> & Hrun & H).
  apply matches_many_inv in H as (ws1 & m2 & -> & Hw1 & _ & _ & H).
  apply matches_letters in H as (date_ & m3 & -> & Hdate & H).
  apply matches_many_inv in H as (ws2 & m4 & -> & Hw2 & _ & _ & H).
  apply matches_many_inv in H as (mm & m5 & -> & Hm & Hm1 & Hm2 & H).
  apply matches_one_inv in H as (c1 & m6 & -> & Hc1 & H).
  apply matches_many_inv in H as (dd & m7 & -> & Hd & Hd1 & Hd2 & H).
  apply matches_one_inv in H as (c2 & m8 & -> & Hc2 & H).
  apply matches_many_inv in H as (yy & m9 & -> & Hy & Hy1 & Hy2 & H).
  apply matches_nil_inv in H; subst m9.
  apply N.eqb_eq in Hc1, Hc2; subst c1 c2.
  specialize (Hm2 2 eq_refl); specialize (Hd2 2 eq_refl);
    specialize (Hy2 4 eq_refl).
  exists run, ws1, date_, ws2, mm, dd, yy; rewrite app_nil_r.
  repeat split; auto.
  - now apply ignorecase_spells in Hrun.
  - now apply ignorecase_spells in Hdate.
  - now apply Nat.le_antisymm.
Qed.

(** When [re.search] finds the pattern of [extract_date], the line has a
    token. *)
Lemma search_run_date_token (line : str) (span : nat * nat) :
  re_search char_newline run_date_re line = Some span ->
  has_run_date_token line.
Proof.
  destruct span as [a b]; intros H.
  apply search_from_sound in H as (pre & m & rest & -> & _ & _ & H).
  exists pre, m, rest; split; [reflexivity|].
  now apply run_date_shape in H.
Qed.

(** * Labels: [re.search] of plain characters is the first occurrence *)

Lemma match_here_literal (l : str) :
  forall pos (s : str),
    match_here char_newline (map (fun c => One (is_char c)) l) pos s =
    if startswith l s then Some (pos + length l) else None.
Proof.
  induction l as [|a l IH]; intros pos s; simpl.
  - now rewrite Nat.add_0_r.
  - destruct s as [|b s]; [reflexivity|].
    unfold is_char at 1; rewrite (N.eqb_sym b a).
    destruct (a =? b)%N; simpl; [|reflexivity].
    rewrite IH. now replace (S pos + length l) with (pos + S (length l)) by lia.
Qed.

Lemma search_from_literal (l s : str) :
  forall pos,
    search_from char_newline (map (fun c => One (is_char c)) l) pos s =
    option_map (fun i => (pos + i, pos + i + length l)) (find l s).
Proof.
  induction s as [|c s IH]; intros pos; simpl; rewrite match_here_literal.
  - destruct (startswith l []); simpl; [now rewrite Nat.add_0_r | reflexivity].
  - destruct (startswith l (c :: s)); simpl; [now rewrite Nat.add_0_r|].
    rewrite IH. destruct (find l s) as [i|]; simpl; [|reflexivity].
    do 2 f_equal; lia.
Qed.

Lemma label_span_find (label : string) (line : str) :
  label_span label line =
  match find (lit label) line with
  | Some i => Ok (i, i + length (lit label))
  | None => Raise (AttributeError "span")
  end.
Proof.
  unfold label_span, re_search, literal. rewrite search_from_literal.
  destruct (find (lit label) line); reflexivity.
Qed.

(** The start of the span of a label is the offset of its first
    occurrence in the line. *)
Lemma label_span_first (label : string) (line : str) (span : nat * nat) :
  label_span label line = Ok span -> first_at (lit label) line (fst span).
Proof.
  rewrite label_span_find.
  destruct (find (lit label) line) as [i|] eqn:F; [|discriminate].
  intros [= <-]; simpl. now apply find_first_at.
Qed.

Lemma label_span_present (label : string) (line : str) :
  contains (lit label) line = true ->
  exists span, label_span label line = Ok span.
Proof.
  rewrite label_span_find; unfold contains.
  destruct (find (lit label) line); [eauto | discriminate].
Qed.

(** * The header *)

Section Header.

Variable py : interp.

Lemma validate_header_four (l0 l1 l2 l3 : str) (tl : list str) :
  validate_header py (l0 :: l1 :: l2 :: l3 :: tl) =
  if header_ok py l0 l1 l2 l3 then Ok tt
  else Raise (ValueError (Text "Malformed page header.")).
Proof.
  unfold validate_header, header_ok, or_else, bind, index; simpl.
  repeat match goal with
         | |- context [contains ?a ?b] =>
             destruct (contains a b); simpl; [|reflexivity]
         | |- context [is_empty ?a] =>
             destruct (is_empty a); simpl; [|reflexivity]
         end.
  reflexivity.
Qed.

(** A list of fewer than four lines never passes. *)
Lemma validate_header_short (l : list str) :
  length l < 4 -> validate_header py l <> Ok tt.
Proof.
  intros Hl.
  destruct l as [|l0 [|l1 [|l2 [|l3 tl]]]]; simpl in Hl; try lia;
    unfold validate_header, or_else, bind, index; simpl;
    repeat match goal with
           | |- context [contains ?a ?b] =>
               destruct (contains a b); simpl; [|discriminate]
           | |- context [is_empty ?a] =>
               destruct (is_empty a); simpl; [|discriminate]
           end;
    discriminate.
Qed.

Lemma validate_header_ok_inv (lines : list str) :
  validate_header py (firstn 4 lines) = Ok tt ->
  exists l0 l1 l2 l3 rest,
    lines = l0 :: l1 :: l2 :: l3 :: rest /\ header_ok py l0 l1 l2 l3 = true.
Proof.
  intros H.
  destruct lines as [|l0 [|l1 [|l2 [|l3 rest]]]];
    try (exfalso; revert H; apply validate_header_short; simpl; lia).
  exists l0, l1, l2, l3, rest; split; [reflexivity|].
  simpl in H; rewrite validate_header_four in H.
  destruct (header_ok py l0 l1 l2 l3); [reflexivity | discriminate].
Qed.

End Header.

(** * The lines of a page *)

Lemma last_item_app {A} (body : list A) (x : A) :
  last_item (body ++ [x]) = Ok x.
Proof.
  unfold last_item, index.
  destruct (body ++ [x]) eqn:E; [now destruct body|].
  rewrite <- E, length_app; simpl.
  rewrite nth_error_app2 by lia.
  now replace (length body + 1 - 1 - length body) with 0 by lia.
Qed.

Section Lines.

Variable py : interp.

Lemma parse_lines_ok date_ pagenum cusip_s issuer_s descrp_s :
  forall lines securities expected_lines securities' expected_lines',
    parse_lines py date_ pagenum cusip_s issuer_s descrp_s lines
      securities expected_lines = Ok (securities', expected_lines') ->
    securities' =
      securities ++
      map (security_of date_ pagenum cusip_s issuer_s descrp_s)
          (filter (is_data_line py) lines) /\
    Forall (fun line =>
              cusip_ok (security_of date_ pagenum cusip_s issuer_s descrp_s
                          line))
           (filter (is_data_line py) lines).
Proof.
  induction lines as [|line rest IH]; intros secs e secs' e' H; simpl in H.
  - injection H as <- <-; simpl; rewrite app_nil_r; auto.
  - assert (E : is_data_line py line =
                 negb (is_empty (strip line))
                 && negb (contains (lit "total count") (lower py line)))
      by reflexivity.
    simpl filter; rewrite E; clear E.
    destruct (is_empty (strip line)); simpl; [now apply IH in H|].
    destruct (contains (lit "total count") (lower py line)); simpl.
    + destruct (int py (filter (isdigit py) line)); simpl in H;
        [now apply IH in H | discriminate].
    + match type of H with
      | context [re_match ?a ?b ?c] => destruct (re_match a b c) eqn:M
      end; [|discriminate].
      apply IH in H as [-> HF]; rewrite <- app_assoc; split; [reflexivity|].
      constructor; [|assumption]. unfold cusip_ok; simpl; congruence.
Qed.

Lemma parse_page_feed (body : bytes) (final : byte) :
  parse_page py (body ++ [final]) =
  if Byte.eqb final page_feed
  then text <- decode body ;; parse_text py text
  else Raise (ValueError (Text "Page feed should be final byte.")).
Proof.
  unfold parse_page. rewrite last_item_app, removelast_last; simpl.
  destruct (Byte.eqb final page_feed); reflexivity.
Qed.

(** What a page that parses is made of. *)
Lemma parse_page_ok_inv (page_ : bytes) securities expected_lines :
  parse_page py page_ = Ok (securities, expected_lines) ->
  exists body text l0 l1 l2 l3 rest date_ pagenum cusip_s issuer_s descrp_s,
    page_ = body ++ [page_feed] /\
    decode body = Ok text /\
    split line_feed text = l0 :: l1 :: l2 :: l3 :: rest /\
    header_ok py l0 l1 l2 l3 = true /\
    extract_date l0 = Ok date_ /\
    extract_pagenum py l0 = Ok pagenum /\
    first_at (lit "CUSIP NO") l3 cusip_s /\
    first_at (lit "ISSUER NAME") l3 issuer_s /\
    first_at (lit "ISSUER DESCRIPTION") l3 descrp_s /\
    securities =
      map (security_of date_ pagenum cusip_s issuer_s descrp_s)
          (filter (is_data_line py) rest) /\
    Forall cusip_ok securities.
Proof.
  induction page_ as [|final body _] using rev_ind; [discriminate|].
  rewrite parse_page_feed.
  destruct (Byte.eqb final page_feed) eqn:E; [|discriminate].
  apply Byte.byte_dec_bl in E; subst final.
  destruct (decode body) as [text|] eqn:D; [|discriminate]; simpl.
  unfold parse_text.
  destruct (validate_header py (firstn 4 (split line_feed text)))
    as [[]|] eqn:V; [|discriminate]; simpl.
  apply validate_header_ok_inv in V as (l0 & l1 & l2 & l3 & rest & Hs & V).
  rewrite Hs; unfold index; simpl.
  destruct (extract_date l0) as [date_|] eqn:Hd; [|discriminate]; simpl.
  destruct (extract_pagenum py l0) as [pagenum|] eqn:Hp; [|discriminate];
    simpl.
  destruct (label_span "CUSIP NO" l3) as [cs|] eqn:H1; [|discriminate].
  destruct (label_span "ISSUER NAME" l3) as [us|] eqn:H2; [|discriminate].
  destruct (label_span "ISSUER DESCRIPTION" l3) as [ds|] eqn:H3;
    [|discriminate].
  simpl; intros H.
  apply parse_lines_ok in H as [-> HF]; simpl.
  apply label_span_first in H1, H2, H3.
  exists body, text, l0, l1, l2, l3, rest, date_, pagenum,
    (fst cs), (fst us), (fst ds).
  repeat split; try assumption; try apply H1; try apply H2; try apply H3.
  now apply Forall_map.
Qed.

End Lines.

(** * The segmenter *)

Lemma in_order_skip {A} (gap : list A) chunks text :
  in_order chunks text -> in_order chunks (gap ++ text).
Proof.
  destruct 1 as [|gap' chunk chunks text H]; [constructor|].
  rewrite app_assoc. now constructor.
Qed.

Lemma slice_middle {A} (pre m rest : list A) :
  slice (pre ++ m ++ rest) (length pre) (length pre + length m) = m.
Proof.
  unfold slice. rewrite skipn_app, skipn_all, Nat.sub_diag; simpl.
  replace (length pre + length m - length pre) with (length m) by lia.
  rewrite firstn_app, firstn_all, Nat.sub_diag; simpl.
  now rewrite app_nil_r.
Qed.

Section Segmenter.

Variable A : Type.
Variable newline : A -> bool.
Variable r : regex A.

(** The slices that [finditer] cuts out of the subject are matches of the
    pattern, and they follow one another in the subject. *)
Lemma finditer_from_chunks (s : list A) :
  forall (pre : list A) (skip : nat),
    let chunks :=
      map (fun span => slice (pre ++ s) (fst span) (snd span))
          (finditer_from newline r (length pre) skip s) in
    in_order chunks (skipn skip s) /\
    Forall (fun chunk => exists pos rest, matches newline r pos chunk rest)
           chunks.
Proof.
  induction s as [|c s IH]; intros pre skip; cbv zeta.
  - simpl; split; constructor.
  - assert (Hpre : pre ++ c :: s = (pre ++ [c]) ++ s)
      by now rewrite <- app_assoc.
    assert (Hlen : S (length pre) = length (pre ++ [c]))
      by (rewrite length_app; simpl; lia).
    simpl finditer_from. destruct skip as [|skip].
    + destruct (match_here newline r (length pre) (c :: s)) as [e|] eqn:M.
      * apply match_here_sound in M as (m & rest & E & -> & Hm).
        assert (Hchunk : slice (pre ++ c :: s) (length pre)
                           (length pre + length m) = m)
          by (rewrite E; apply slice_middle).
        simpl map; simpl fst; simpl snd.
        rewrite Hchunk, Hpre, Hlen.
        replace (length pre + length m - length pre - 1)
          with (length m - 1) by lia.
        destruct (IH (pre ++ [c]) (length m - 1)) as [H1 H2].
        split; [|constructor; eauto].
        destruct m as [|c' m]; simpl in E.
        -- subst rest. change (length (@nil A) - 1) with 0 in *.
           simpl skipn in H1 |- *.
           now apply (in_order_cons [c] [] _ s).
        -- injection E as <- ->.
           replace (length (c :: m) - 1) with (length m) in *
             by (simpl; lia).
           rewrite skipn_app, skipn_all, Nat.sub_diag in H1; simpl in H1.
           simpl skipn. now apply (in_order_cons [] (c :: m) _ rest).
      * rewrite Hpre, Hlen.
        destruct (IH (pre ++ [c]) 0) as [H1 H2].
        split; [|assumption].
        simpl skipn in H1 |- *. now apply (in_order_skip [c]).
    + rewrite Hpre, Hlen. apply (IH (pre ++ [c]) skip).
Qed.

Lemma finditer_chunks (s : list A) :
  let chunks :=
    map (fun span => slice s (fst span) (snd span)) (finditer newline r s) in
  in_order chunks s /\
  Forall (fun chunk => exists pos rest, matches newline r pos chunk rest)
         chunks.
Proof. exact (finditer_from_chunks s [] 0). Qed.

End Segmenter.

Lemma page_chunk_ends (chunk : bytes) :
  page_chunk chunk -> exists body, chunk = body ++ [page_feed].
Proof.
  intros (run & blanks & date_ & body & -> & _).
  exists (run ++ blanks ++ date_ ++ body).
  now rewrite <- !app_assoc.
Qed.

(** The chunks of the generator, all at once. *)
Lemma pages_of_chunks (pdf_text : bytes) :
  in_order (pages_of pdf_text) pdf_text /\
  Forall page_chunk (pages_of pdf_text).
Proof.
  destruct (finditer_chunks _ byte_newline page_sep pdf_text) as [H1 H2].
  split; [exact H1|].
  unfold pages_of. eapply Forall_impl; [|exact H2].
  intros chunk (pos & rest & H). now apply page_sep_shape in H.
Qed.

(** * The claims *)

Lemma header_ok_conforms (py : interp) (l0 l1 l2 l3 : str) :
  header_ok py l0 l1 l2 l3 = true <-> header_conforms py l0 l1 l2 l3.
Proof.
  unfold header_ok, header_conforms, has_word.
  rewrite !andb_true_iff, !contains_iff.
  assert (E : is_empty l2 = true <-> l2 = [])
    by (destruct l2; simpl; split; congruence).
  rewrite E; tauto.
Qed.

(** C5. On four header lines [validate_header] raises its [ValueError]
    (the HeaderValidationError of the specification) exactly when one of
    the conditions fails: line 0 has "run date" and "page" and line 1 has
    "run time" and "year", whatever the case; line 2 is empty; line 3 has
    the four labels as written. It returns otherwise. A page whose header
    fails gives no record: [parse_page] raises the same exception. *)
Theorem validate_header_strict :
  forall (py : interp) (l0 l1 l2 l3 : str),
    (validate_header py [l0; l1; l2; l3]
       = Raise (ValueError (Text "Malformed page header."))
     <-> ~ header_conforms py l0 l1 l2 l3) /\
    (validate_header py [l0; l1; l2; l3] = Ok tt
     <-> header_conforms py l0 l1 l2 l3) /\
    (forall (body : bytes) (text : str) (e : exn),
        decode body = Ok text ->
        validate_header py (firstn 4 (split line_feed text)) = Raise e ->
        parse_page py (body ++ [page_feed]) = Raise e).
Proof.
  intros py l0 l1 l2 l3.
  rewrite validate_header_four, <- header_ok_conforms.
  split; [|split].
  - destruct (header_ok py l0 l1 l2 l3); split; intros H;
      try discriminate; try reflexivity.
    now exfalso; apply H.
  - destruct (header_ok py l0 l1 l2 l3); split; intros H;
      try discriminate; reflexivity.
  - intros body text e D V.
    rewrite parse_page_feed; simpl; rewrite D; simpl.
    unfold parse_text; now rewrite V.
Qed.

(** On [page_without_status]: the header fails and the page gives no
    record. *)
Lemma validate_header_strict_witness :
  parse_page ascii_python page_without_status
  = Raise (ValueError (Text "Malformed page header.")).
Proof.
  apply (proj2 (proj2 (validate_header_strict ascii_python [] [] [] []))
           (removelast page_without_status)
           (map Byte.to_N (removelast page_without_status))).
  - reflexivity.
  - reflexivity.
Defined.

Lemma run_date_token_slash (t : str) : run_date_token t -> In 47%N t.
Proof.
  intros (run & ws1 & date_ & ws2 & m & d & y & E & _); subst t.
  do 5 (apply in_or_app; right). now left.
Qed.

(** C8. When the header of a page passes and its line 0 has no
    [run date: D/D/YYYY] token, [extract_date] raises (the [AttributeError]
    of [m.start()] on [None]: the DateExtractionError of the
    specification), and so does [parse_page]. *)
Theorem missing_run_date_fails :
  forall (py : interp) (body : bytes) (text line0 : str) (rest : list str),
    decode body = Ok text ->
    split line_feed text = line0 :: rest ->
    validate_header py (firstn 4 (line0 :: rest)) = Ok tt ->
    ~ has_run_date_token line0 ->
    extract_date line0 = Raise (AttributeError "start") /\
    parse_page py (body ++ [page_feed]) = Raise (AttributeError "start").
Proof.
  intros py body text line0 rest D S V Hno.
  assert (E : extract_date line0 = Raise (AttributeError "start")).
  { unfold extract_date.
    destruct (re_search char_newline run_date_re line0) as [span|] eqn:M;
      [|reflexivity].
    exfalso; apply Hno. now apply search_run_date_token in M. }
  split; [exact E|].
  rewrite parse_page_feed; simpl; rewrite D; simpl.
  unfold parse_text; rewrite S, V; simpl.
  unfold index; simpl. now rewrite E.
Qed.

(** On [page_without_date], whose line 0 is [Run Date  Page 1]. *)
Lemma missing_run_date_fails_witness :
  extract_date (lit "Run Date  Page 1") = Raise (AttributeError "start") /\
  parse_page ascii_python page_without_date = Raise (AttributeError "start").
Proof.
  apply (missing_run_date_fails ascii_python
           (removelast page_without_date)
           (map Byte.to_N (removelast page_without_date))
           (lit "Run Date  Page 1")
           (tl (split line_feed
                  (map Byte.to_N (removelast page_without_date))))).
  - reflexivity.
  - reflexivity.
  - reflexivity.
  - intros (pre & t & post & E & Ht).
    apply run_date_token_slash in Ht.
    assert (H : In 47%N (lit "Run Date  Page 1"))
      by (rewrite E; apply in_or_app; right; apply in_or_app; now left).
    simpl in H; intuition discriminate.
Defined.

(** C7. [parse_page] raises when its argument does not end with the page
    feed ([IndexError] on no byte at all), and otherwise decodes all the
    bytes before that last one and goes on with the text. The chunks of the
    generator lie in the text in the order they are yielded, every one has
    the shape of the page separator and ends with the page feed, so
    [parse_page] finds its last byte in place on each of them. *)
Theorem page_feed_is_final_byte :
  forall (py : interp) (World : Type)
         (Popen : list string -> World -> process * World),
    parse_page py [] = Raise IndexError /\
    (forall (body : bytes) (final : byte),
        parse_page py (body ++ [final]) =
        if Byte.eqb final page_feed
        then text <- decode body ;; parse_text py text
        else Raise (ValueError (Text "Page feed should be final byte."))) /\
    (forall (pdf_file : string) (w w' : World) (chunks : list bytes),
        yield_pages_as_bytes Popen pdf_file w = (Ok chunks, w') ->
        exists pdf_text,
          get_pdf_text_bytes Popen pdf_file w = (Ok pdf_text, w') /\
          in_order chunks pdf_text /\
          Forall page_chunk chunks /\
          Forall (fun chunk =>
                    exists body,
                      chunk = body ++ [page_feed] /\
                      parse_page py chunk =
                        (text <- decode body ;; parse_text py text))
                 chunks).
Proof.
  intros py World Popen; split; [reflexivity|]; split.
  - apply parse_page_feed.
  - intros pdf_file w w' chunks H. unfold yield_pages_as_bytes in H.
    destruct (get_pdf_text_bytes Popen pdf_file w) as [[pdf_text|e] w1];
      [|discriminate].
    injection H as <- <-.
    destruct (pages_of_chunks pdf_text) as [H1 H2].
    exists pdf_text; repeat split; try assumption.
    eapply Forall_impl; [|exact H2].
    intros chunk Hc. apply page_chunk_ends in Hc as [body ->].
    exists body; split; [reflexivity|].
    now rewrite parse_page_feed.
Qed.

(** On a file of two pages that [pdftotext] prints whole. *)
Lemma page_feed_is_final_byte_witness :
  exists pdf_text,
    get_pdf_text_bytes (prints (page_with_footer ++ page_without_footer))
      "1_2020.pdf" 0 = (Ok pdf_text, 2) /\
    in_order [page_with_footer; page_without_footer] pdf_text /\
    Forall page_chunk [page_with_footer; page_without_footer] /\
    Forall (fun chunk =>
              exists body,
                chunk = body ++ [page_feed] /\
                parse_page ascii_python chunk =
                  (text <- decode body ;; parse_text ascii_python text))
           [page_with_footer; page_without_footer].
Proof.
  apply (proj2 (proj2 (page_feed_is_final_byte ascii_python nat
                         (prints (page_with_footer ++ page_without_footer))))
           "1_2020.pdf"%string 0 2).
  reflexivity.
Defined.

Lemma first_at_unique (label line : str) (i j : nat) :
  first_at label line i -> first_at label line j -> i = j.
Proof.
  intros [Hi Hi'] [Hj Hj'].
  destruct (Nat.lt_trichotomy i j) as [H | [H | H]]; [|assumption|].
  - now apply Hj' in H.
  - now apply Hi' in H.
Qed.

Lemma Forall2_map_right {A B} (P : A -> B -> Prop) (f : A -> B) (l : list A) :
  (forall a, P a (f a)) -> Forall2 P l (map f l).
Proof. intros H; induction l; simpl; constructor; auto. Qed.

(** The records of a page that parses, by the offsets of the labels. *)
Lemma parse_page_records (py : interp) (body : bytes) (text : str)
    (l0 l1 l2 l3 : str) (rest : list str) (cusip_s issuer_s descrp_s : nat)
    (securities : list security) (expected_lines : option N) :
  decode body = Ok text ->
  split line_feed text = l0 :: l1 :: l2 :: l3 :: rest ->
  first_at (lit "CUSIP NO") l3 cusip_s ->
  first_at (lit "ISSUER NAME") l3 issuer_s ->
  first_at (lit "ISSUER DESCRIPTION") l3 descrp_s ->
  parse_page py (body ++ [page_feed]) = Ok (securities, expected_lines) ->
  exists date_ pagenum,
    securities =
      map (security_of date_ pagenum cusip_s issuer_s descrp_s)
          (filter (is_data_line py) rest).
Proof.
  intros D S H1 H2 H3 H.
  apply parse_page_ok_inv in H
    as (body' & text' & l0' & l1' & l2' & l3' & rest' & date_ & pagenum
        & cs & us & ds & E & D' & S' & _ & _ & _ & H1' & H2' & H3' & -> & _).
  apply app_inj_tail in E as [<- _].
  rewrite D in D'; injection D' as <-.
  rewrite S in S'; injection S' as <- <- <- <- <-.
  rewrite (first_at_unique _ _ _ _ H1 H1'), (first_at_unique _ _ _ _ H2 H2'),
    (first_at_unique _ _ _ _ H3 H3').
  now exists date_, pagenum.
Qed.

(** C4. On a page that parses, let [cusip_s], [issuer_s] and [descrp_s] be
    the offsets where "CUSIP NO", "ISSUER NAME" and "ISSUER DESCRIPTION"
    first occur in line 3 of that page. The records are, in order, those
    of the lines after the header that are neither blank nor the footer,
    and each has for CUSIP the slice of its line from [cusip_s] to
    [issuer_s], for issuer the slice from [issuer_s] to [descrp_s], and
    for description the slice from [descrp_s] to the end of the line. *)
Theorem columns_from_header_labels :
  forall (py : interp) (body : bytes) (text l0 l1 l2 l3 : str)
         (rest : list str) (cusip_s issuer_s descrp_s : nat)
         (securities : list security) (expected_lines : option N),
    decode body = Ok text ->
    split line_feed text = l0 :: l1 :: l2 :: l3 :: rest ->
    first_at (lit "CUSIP NO") l3 cusip_s ->
    first_at (lit "ISSUER NAME") l3 issuer_s ->
    first_at (lit "ISSUER DESCRIPTION") l3 descrp_s ->
    parse_page py (body ++ [page_feed]) = Ok (securities, expected_lines) ->
    Forall2 (sliced_at cusip_s issuer_s descrp_s)
            (filter (is_data_line py) rest) securities.
Proof.
  intros py body text l0 l1 l2 l3 rest cusip_s issuer_s descrp_s
    securities expected_lines D S H1 H2 H3 H.
  destruct (parse_page_records py body text l0 l1 l2 l3 rest cusip_s
              issuer_s descrp_s securities expected_lines D S H1 H2 H3 H)
    as (date_ & pagenum & ->).
  apply Forall2_map_right. intros line; repeat split.
Qed.

(** On [page_with_footer]: the labels are at offsets 0, 13 and 33. *)
Lemma columns_from_header_labels_witness :
  Forall2 (sliced_at 0 13 33)
          [lit "123456 78 9  ACME CORP           WIDGET MAKER"]
          [sample_security].
Proof.
  apply (columns_from_header_labels ascii_python
           (removelast page_with_footer)
           (map Byte.to_N (removelast page_with_footer))
           (lit "Run Date: 1/2/2020  Page 1")
           (lit "Run Time: 10:00  Year 2020")
           []
           (lit "CUSIP NO     ISSUER NAME         ISSUER DESCRIPTION   STATUS")
           [lit "123456 78 9  ACME CORP           WIDGET MAKER";
            lit "total count: 1"; []]
           0 13 33 [sample_security] (Some 1%N)).
  - reflexivity.
  - reflexivity.
  - apply find_first_at; reflexivity.
  - apply find_first_at; reflexivity.
  - apply find_first_at; reflexivity.
  - reflexivity.
Defined.

(** C6. On a page that parses, every record has [optionable] true exactly
    when the raw CUSIP slice of its line has the marker [*], [added] true
    exactly when the raw description slice has "ADDED", [deleted] true
    exactly when it has "DELETED", and for description that slice with
    "ADDED", then "DELETED", replaced by nothing and the blanks at both ends
    removed. The two status booleans do not exclude each other: one record
    of [page_with_marks] has both. *)
Theorem status_flags_from_raw_slices :
  forall (py : interp) (body : bytes) (text l0 l1 l2 l3 : str)
         (rest : list str) (cusip_s issuer_s descrp_s : nat)
         (securities : list security) (expected_lines : option N),
    decode body = Ok text ->
    split line_feed text = l0 :: l1 :: l2 :: l3 :: rest ->
    first_at (lit "CUSIP NO") l3 cusip_s ->
    first_at (lit "ISSUER NAME") l3 issuer_s ->
    first_at (lit "ISSUER DESCRIPTION") l3 descrp_s ->
    parse_page py (body ++ [page_feed]) = Ok (securities, expected_lines) ->
    Forall2 (flagged_at cusip_s issuer_s descrp_s)
            (filter (is_data_line py) rest) securities /\
    exists s,
      parse_page ascii_python page_with_marks = Ok ([s], None) /\
      optionable s = true /\ added s = true /\ deleted s = true.
Proof.
  intros py body text l0 l1 l2 l3 rest cusip_s issuer_s descrp_s
    securities expected_lines D S H1 H2 H3 H.
  split.
  - destruct (parse_page_records py body text l0 l1 l2 l3 rest cusip_s
                issuer_s descrp_s securities expected_lines D S H1 H2 H3 H)
      as (date_ & pagenum & ->).
    apply Forall2_map_right. intros line.
    unfold flagged_at, has_word, security_of.
    cbn [optionable added deleted description].
    rewrite <- (contains_char 42%N), <- !contains_iff.
    repeat split; auto.
  - eexists; split; [vm_compute; reflexivity|]. repeat split.
Qed.

(** On [page_with_footer], whose record has no mark. *)
Lemma status_flags_from_raw_slices_witness :
  Forall2 (flagged_at 0 13 33)
          [lit "123456 78 9  ACME CORP           WIDGET MAKER"]
          [sample_security] /\
  exists s,
    parse_page ascii_python page_with_marks = Ok ([s], None) /\
    optionable s = true /\ added s = true /\ deleted s = true.
Proof.
  apply (status_flags_from_raw_slices ascii_python
           (removelast page_with_footer)
           (map Byte.to_N (removelast page_with_footer))
           (lit "Run Date: 1/2/2020  Page 1")
           (lit "Run Time: 10:00  Year 2020")
           []
           (lit "CUSIP NO     ISSUER NAME         ISSUER DESCRIPTION   STATUS")
           [lit "123456 78 9  ACME CORP           WIDGET MAKER";
            lit "total count: 1"; []]
           0 13 33 [sample_security] (Some 1%N)).
  - reflexivity.
  - reflexivity.
  - apply find_first_at; reflexivity.
  - apply find_first_at; reflexivity.
  - apply find_first_at; reflexivity.
  - reflexivity.
Defined.

(** * The CUSIP of a record *)

Lemma lstrip_head (s : str) (c : char) (t : str) :
  lstrip s = c :: t -> isspace c = false.
Proof.
  induction s as [|a s IH]; simpl; [discriminate|].
  destruct (isspace a) eqn:E; [exact IH|].
  now intros [= <- _].
Qed.

(** [strip()] leaves no white space at the end. *)
Lemma strip_last (s t : str) (c : char) :
  strip s = t ++ [c] -> isspace c = false.
Proof.
  unfold strip, rstrip; intros H.
  apply (f_equal (@rev char)) in H.
  rewrite rev_involutive, rev_unit in H.
  now apply lstrip_head in H.
Qed.

Lemma cusip_re_shape (m rest : str) :
  matches char_newline cusip_re 0 m rest ->
  well_formed_cusip m /\ (rest = [] \/ rest = [line_feed]).
Proof.
  unfold cusip_re; intros H.
  apply matches_bol_inv in H as [_ H].
  apply matches_many_inv in H as (g1 & m1 & -> & A1 & L1 & U1 & H).
  apply matches_one_inv in H as (c1 & m2 & -> & C1 & H).
  apply matches_many_inv in H as (g2 & m3 & -> & A2 & L2 & U2 & H).
  apply matches_one_inv in H as (c2 & m4 & -> & C2 & H).
  apply matches_many_inv in H as (g3 & m5 & -> & A3 & L3 & U3 & H).
  apply matches_eol_inv in H as [He H].
  apply matches_nil_inv in H; subst m5.
  apply N.eqb_eq in C1, C2; subst c1 c2.
  specialize (U1 6 eq_refl); specialize (U2 2 eq_refl);
    specialize (U3 1 eq_refl).
  split.
  - exists g1, g2, g3; rewrite app_nil_r.
    repeat split; auto; now apply Nat.le_antisymm.
  - simpl in He. destruct rest as [|c [|c' rest]]; auto; [|discriminate].
    right. apply N.eqb_eq in He. now subst c.
Qed.

(** The CUSIP of every record of a page that parses is well formed: a
    line whose CUSIP is not never gets into the list. *)
Theorem records_have_well_formed_cusip :
  forall (py : interp) (page_ : bytes) (securities : list security)
         (expected_lines : option N),
    parse_page py page_ = Ok (securities, expected_lines) ->
    Forall (fun s => well_formed_cusip (cusip s)) securities.
Proof.
  intros py page_ securities expected_lines H.
  apply parse_page_ok_inv in H
    as (body & text & l0 & l1 & l2 & l3 & rest & date_ & pagenum
        & cs & us & ds & _ & _ & _ & _ & _ & _ & _ & _ & _ & -> & HF).
  rewrite Forall_forall in HF |- *. intros s Hin.
  specialize (HF s Hin). apply in_map_iff in Hin as (line & <- & _).
  unfold cusip_ok in HF.
  destruct (re_match char_newline cusip_re
              (cusip (security_of date_ pagenum cs us ds line)))
    as [e|] eqn:M; [clear HF | congruence].
  apply match_here_sound in M as (m & tail & E & _ & Hm).
  apply cusip_re_shape in Hm as [Hw [-> | ->]].
  - now rewrite E, app_nil_r.
  - simpl in E. apply strip_last in E. discriminate.
Qed.

(** On [page_with_footer]. *)
Lemma records_have_well_formed_cusip_witness :
  Forall (fun s => well_formed_cusip (cusip s)) [sample_security].
Proof.
  apply (records_have_well_formed_cusip ascii_python page_with_footer
           [sample_security] (Some 1%N)).
  reflexivity.
Defined.

(** The records of a page all carry the date and the page number that
    [extract_date] and [extract_pagenum] read in line 0 of that page. *)
Theorem records_share_date_and_page :
  forall (py : interp) (page_ : bytes) (securities : list security)
         (expected_lines : option N),
    parse_page py page_ = Ok (securities, expected_lines) ->
    exists (text : str) (date_ : str) (pagenum : N),
      decode (removelast page_) = Ok text /\
      extract_date (hd [] (split line_feed text)) = Ok date_ /\
      extract_pagenum py (hd [] (split line_feed text)) = Ok pagenum /\
      Forall (fun s => date s = date_ /\ page s = pagenum) securities.
Proof.
  intros py page_ securities expected_lines H.
  apply parse_page_ok_inv in H
    as (body & text & l0 & l1 & l2 & l3 & rest & date_ & pagenum
        & cs & us & ds & -> & D & S & _ & Hd & Hp & _ & _ & _ & -> & _).
  exists text, date_, pagenum. rewrite removelast_last, S; simpl.
  repeat split; try assumption.
  apply Forall_forall; intros s Hin.
  apply in_map_iff in Hin as (line & <- & _). now split.
Qed.

(** On [page_with_footer]: the date is 1/2/2020 and the page 1. *)
Lemma records_share_date_and_page_witness :
  exists (text : str) (date_ : str) (pagenum : N),
    decode (removelast page_with_footer) = Ok text /\
    extract_date (hd [] (split line_feed text)) = Ok date_ /\
    extract_pagenum ascii_python (hd [] (split line_feed text)) = Ok pagenum /\
    Forall (fun s => date s = date_ /\ page s = pagenum) [sample_security].
Proof.
  apply (records_share_date_and_page ascii_python page_with_footer
           [sample_security] (Some 1%N)).
  reflexivity.
Defined.

(** * Two runs *)

Section Runs.

Variable py : interp.
Variable World : Type.
Variable Popen : list string -> World -> process * World.

(** What [pdftotext] prints for a command does not depend on when it is
    run. *)
Hypothesis same_output :
  forall (command : list string) (w1 w2 : World),
    fst (Popen command w1) = fst (Popen command w2).

Lemma is_first_page_same (pdf_file : string) (page_num : nat) (w1 w2 : World) :
  fst (is_first_page Popen pdf_file page_num w1) =
  fst (is_first_page Popen pdf_file page_num w2).
Proof.
  unfold is_first_page.
  match goal with
  | |- context [Popen ?c w1] =>
      pose proof (same_output c w1 w2) as E;
      destruct (Popen c w1) as [p1 w1'], (Popen c w2) as [p2 w2']
  end.
  simpl in E; subst p2.
  destruct p1 as [|returncode stdout]; [reflexivity|].
  destruct (returncode =? 0)%Z; reflexivity.
Qed.

Lemma find_first_page_in_same (pdf_file : string) (candidates : list nat) :
  forall w1 w2 : World,
    fst (find_first_page_in Popen pdf_file candidates w1) =
    fst (find_first_page_in Popen pdf_file candidates w2).
Proof.
  induction candidates as [|i rest IH]; intros w1 w2; simpl; [reflexivity|].
  pose proof (is_first_page_same pdf_file i w1 w2) as E.
  destruct (is_first_page Popen pdf_file i w1) as [r1 w1'],
           (is_first_page Popen pdf_file i w2) as [r2 w2'].
  simpl in E; subst r2.
  destruct r1 as [out|e]; [|reflexivity].
  destruct (negb (is_empty out)); [reflexivity | apply IH].
Qed.

Lemma get_pdf_text_bytes_same (pdf_file : string) (w1 w2 : World) :
  fst (get_pdf_text_bytes Popen pdf_file w1) =
  fst (get_pdf_text_bytes Popen pdf_file w2).
Proof.
  unfold get_pdf_text_bytes, find_first_page.
  pose proof (find_first_page_in_same pdf_file (seq 1 3) w1 w2) as E.
  destruct (find_first_page_in Popen pdf_file (seq 1 3) w1) as [r1 w1'],
           (find_first_page_in Popen pdf_file (seq 1 3) w2) as [r2 w2'].
  simpl in E; subst r2.
  destruct r1 as [first_page|e]; [|reflexivity].
  match goal with
  | |- context [Popen ?c w1'] =>
      pose proof (same_output c w1' w2') as E;
      destruct (Popen c w1') as [p1 w1''], (Popen c w2') as [p2 w2'']
  end.
  simpl in E; subst p2.
  destruct p1 as [|returncode stdout]; [reflexivity|].
  destruct (returncode =? 0)%Z; reflexivity.
Qed.

Lemma parse_pdf_index_same (pdf_file : string) (w1 w2 : World) :
  fst (parse_pdf_index py Popen pdf_file w1) =
  fst (parse_pdf_index py Popen pdf_file w2).
Proof.
  unfold parse_pdf_index, yield_pages_as_bytes.
  pose proof (get_pdf_text_bytes_same pdf_file w1 w2) as E.
  destruct (get_pdf_text_bytes Popen pdf_file w1) as [r1 w1'],
           (get_pdf_text_bytes Popen pdf_file w2) as [r2 w2'].
  simpl in E; subst r2.
  destruct r1; reflexivity.
Qed.

End Runs.

(** C9. When [pdftotext] prints the same bytes for the same command
    however many times it is run, parsing a file again, in the world the
    first run left, gives what the first run gave: the same records with
    the same fields in the same order, or the same exception. *)
Theorem parse_twice_same_result :
  forall (py : interp) (World : Type)
         (Popen : list string -> World -> process * World)
         (pdf_file : string) (w : World),
    (forall (command : list string) (w1 w2 : World),
        fst (Popen command w1) = fst (Popen command w2)) ->
    fst (parse_pdf_index py Popen pdf_file
           (snd (parse_pdf_index py Popen pdf_file w))) =
    fst (parse_pdf_index py Popen pdf_file w).
Proof.
  intros py World Popen pdf_file w same_output.
  now apply parse_pdf_index_same.
Qed.

(** On a [pdftotext] that prints [page_with_footer] at every run. *)
Lemma parse_twice_same_result_witness :
  fst (parse_pdf_index ascii_python (prints page_with_footer) "1_2020.pdf"
         (snd (parse_pdf_index ascii_python (prints page_with_footer)
                 "1_2020.pdf" 0))) =
  fst (parse_pdf_index ascii_python (prints page_with_footer) "1_2020.pdf" 0).
Proof.
  apply (parse_twice_same_result ascii_python nat (prints page_with_footer)
           "1_2020.pdf" 0).
  intros command w1 w2; reflexivity.
Defined.

(** * The document *)

Lemma parse_pages_ok (py : interp) (pages : list bytes) :
  forall (results : list (list security * option N))
         (securities : list security) (expected_lines : binding (option N)),
    map (parse_page py) pages = map Ok results ->
    parse_pages py pages securities expected_lines =
    Ok (securities ++ concat (map fst results),
        fold_left (fun _ r => Bound (snd r)) results expected_lines).
Proof.
  induction pages as [|page_ pages IH]; intros results secs b H;
    destruct results as [|r results]; try discriminate; simpl.
  - now rewrite app_nil_r.
  - injection H as Hp H. rewrite Hp; simpl.
    rewrite (IH results _ _ H). now rewrite app_assoc.
Qed.

(** C1, as the code has it. On a document whose pages all parse (there is
    one at least), [parse_pdf_index] checks the number of records of all
    the pages against the count that the LAST page declares, absent when
    that page has no footer, whatever the pages before it declared: when
    the two are equal it returns the records of the pages in order, and
    when they differ (always, when the last page declares none) it raises
    the [ValueError] that carries both. *)
Theorem total_checked_against_last_page :
  forall (py : interp) (World : Type)
         (Popen : list string -> World -> process * World)
         (pdf_file : string) (w w' : World) (pdf_text : bytes)
         (results : list (list security * option N))
         (last_result : list security * option N),
    get_pdf_text_bytes Popen pdf_file w = (Ok pdf_text, w') ->
    map (parse_page py) (pages_of pdf_text)
      = map Ok (results ++ [last_result]) ->
    let securities := concat (map fst (results ++ [last_result])) in
    let total := N.of_nat (length securities) in
    (snd last_result = Some total ->
     parse_pdf_index py Popen pdf_file w = (Ok securities, w')) /\
    (snd last_result <> Some total ->
     parse_pdf_index py Popen pdf_file w =
       (Raise (ValueError (Total_does_not_match total (snd last_result))),
        w')) /\
    (snd last_result <> None ->
     spec_retained_count (map snd (results ++ [last_result])) = snd last_result).
Proof.
  intros py World Popen pdf_file w w' pdf_text results last_result G P.
  cbv zeta.
  assert (E : parse_pdf_index py Popen pdf_file w
              = (parse_document py (pages_of pdf_text), w'))
    by (unfold parse_pdf_index, yield_pages_as_bytes; now rewrite G).
  rewrite E; unfold parse_document.
  rewrite (parse_pages_ok py _ _ [] Unbound P); simpl.
  rewrite fold_left_app; simpl. unfold differs.
  split; [|split].
  - intros H; rewrite H, N.eqb_refl; reflexivity.
  - intros H. destruct (snd last_result) as [n|]; [|reflexivity].
    destruct (N.eqb_spec
                (N.of_nat
                   (length (concat (map fst (results ++ [last_result])))))
                n) as [Hn|Hn]; [congruence | reflexivity].
  - intros H; unfold spec_retained_count; rewrite map_app, fold_left_app; simpl.
    destruct (snd last_result); [reflexivity | congruence].
Qed.

(** On a document of two pages, the footer on the last: the count is met. *)
Lemma total_checked_against_last_page_witness :
  parse_pdf_index ascii_python
    (prints (page_without_footer ++ page_with_footer)) "1_2020.pdf" 0
  = (Ok [sample_security], 2).
Proof.
  apply (total_checked_against_last_page ascii_python nat
           (prints (page_without_footer ++ page_with_footer))
           "1_2020.pdf" 0 2 (page_without_footer ++ page_with_footer)
           [([], None)] ([sample_security], Some 1%N)).
  - reflexivity.
  - reflexivity.
  - reflexivity.
Defined.

(** C1, as it is stated, fails on a document of two pages where the first
    declares the count and the second has no footer. Both pages parse; the
    count that the specification keeps is 1 and the pages have 1 record in
    all, so no exception is due; [parse_pdf_index] raises the mismatch of
    1 against [None]. This holds on every interpreter. *)
Lemma count_of_earlier_page_is_dropped :
  let pdf_text := page_with_footer ++ page_without_footer in
  let results := [([sample_security], Some 1%N); ([], None)] in
  pages_of pdf_text = [page_with_footer; page_without_footer] /\
  (forall py : interp,
      map (parse_page py) (pages_of pdf_text) = map Ok results) /\
  spec_retained_count (map snd results) = Some 1%N /\
  N.of_nat (length (concat (map fst results))) = 1%N /\
  (forall py : interp,
      parse_pdf_index py (prints pdf_text) "1_2020.pdf" 0
      = (Raise (ValueError (Total_does_not_match 1 None)), 2)).
Proof.
  cbv zeta; split; [|split; [|split; [|split]]].
  - vm_compute; reflexivity.
  - intros [ul ud uv [|lim]]; vm_compute; reflexivity.
  - reflexivity.
  - reflexivity.
  - intros [ul ud uv [|lim]]; vm_compute; reflexivity.
Qed.

(** * Where the code departs from what it sets out to do *)

(** C2 (the code stops short of it). Page 1 of the file is a cover page,
    without the header marker, and page 2 has the marker: the first page
    of the index is page 2. [is_first_page] returns what [pdftotext]
    printed for page 1, which is not empty, and [find_first_page] answers
    "1" after one run. *)
Example find_first_page_takes_cover_page :
  re_search byte_newline page_sep cover_page = None /\
  re_search byte_newline page_sep page_with_footer <> None /\
  is_first_page pdftotext_with_cover "1_2020.pdf" 1 0 = (Ok cover_page, 1) /\
  find_first_page pdftotext_with_cover "1_2020.pdf" 0 = (Ok "1"%string, 1).
Proof. repeat split; try (vm_compute; reflexivity). vm_compute; discriminate. Qed.

(** C3 (the code stops short of it). A line whose CUSIP has five
    characters in its first group makes [parse_page] raise, and no record
    comes out; the exception is the [NameError] of the name
    [MalformedDataError], which says nothing of the value. *)
Example malformed_cusip_raises_name_error :
  forall py : interp,
    re_match char_newline cusip_re (lit "12345 78 9") = None /\
    parse_page py page_with_bad_cusip = Raise (NameError "MalformedDataError").
Proof. intros [ul ud uv [|lim]]; split; vm_compute; reflexivity. Qed.

(** C10 (the code stops short of it). A text without the page separator
    has no chunk. The loop of [parse_pdf_index] assigns [expected_lines] in
    its body only, so the comparison after it raises [UnboundLocalError]:
    no list is returned, and the exception is not the mismatch. *)
Example no_page_raises_unbound_local :
  forall py : interp,
    pages_of cover_page = [] /\
    parse_document py [] = Raise (UnboundLocalError "expected_lines") /\
    parse_pdf_index py (prints cover_page) "1_2020.pdf" 0
    = (Raise (UnboundLocalError "expected_lines"), 2).
Proof. intros py; repeat split; vm_compute; reflexivity. Qed.

(** * How the patterns find what is there *)

Section Complete.

Variable A : Type.
Variable newline : A -> bool.

Lemma match_letters_complete (f : N -> A -> bool) (ls : list N) (w : list A)
    (r : regex A) :
  Forall2 (fun l c => f l c = true) ls w ->
  forall pos (s : list A),
    match_here newline (map (fun l => One (f l)) ls ++ r) pos (w ++ s) =
    match_here newline r (pos + length ls) s.
Proof.
  induction 1 as [|l c ls w H _ IH]; intros pos s; simpl.
  - now rewrite Nat.add_0_r.
  - rewrite H, IH. f_equal; lia.
Qed.

(** A lazy repetition gives way to the rest of the pattern at the first
    place where the rest can start. *)
Lemma many_lazy_complete (k : nat -> list A -> option nat) (p q : A -> bool)
    (t s : list A) (e : nat) :
  (forall pos c s', q c = false -> k pos (c :: s') = None) ->
  forallb p t = true ->
  forallb (fun c => negb (q c)) t = true ->
  forall pos,
    k (pos + length t) s = Some e ->
    many k true p 0 None pos (t ++ s) = Some e.
Proof.
  intros Hk; induction t as [|c t IH]; intros Hp Hq pos He.
  - simpl in He; rewrite Nat.add_0_r in He.
    rewrite many_unfold; cbv zeta; simpl. now rewrite He.
  - simpl in Hp, Hq.
    apply andb_true_iff in Hp as [Hc Hp], Hq as [Hqc Hq].
    apply negb_true_iff in Hqc.
    rewrite many_unfold; cbv zeta; simpl app.
    rewrite (Hk pos c (t ++ s) Hqc), Hc; simpl.
    apply IH; auto.
    now replace (S pos + length t) with (pos + length (c :: t))
      by (simpl; lia).
Qed.

(** A greedy repetition takes all of a run that cannot go on. *)
Lemma many_greedy_complete (k : nat -> list A -> option nat) (p : A -> bool)
    (t s : list A) (e : nat) :
  forallb p t = true ->
  forall lo hi pos,
    lo <= length t ->
    (forall h, hi = Some h -> length t <= h) ->
    hi = Some (length t) \/
      match s with [] => True | c :: _ => p c = false end ->
    k (pos + length t) s = Some e ->
    many k false p lo hi pos (t ++ s) = Some e.
Proof.
  induction t as [|c t IH]; intros Hp lo hi pos Hlo Hhi Hend He.
  - simpl in He, Hlo; rewrite Nat.add_0_r in He.
    assert (lo = 0) by lia; subst lo.
    rewrite many_unfold; cbv zeta; simpl app.
    destruct s as [|c s]; [now rewrite He|].
    destruct Hend as [-> | Hc]; simpl;
      [rewrite andb_false_r | rewrite Hc; simpl]; now rewrite He.
  - simpl in Hp; apply andb_true_iff in Hp as [Hc Hp].
    rewrite many_unfold; cbv zeta; simpl app; cbv beta iota.
    assert (Hcan : can_take hi = true).
    { destruct hi as [[|h]|]; auto. specialize (Hhi 0 eq_refl); simpl in Hhi; lia. }
    rewrite Hc, Hcan; simpl.
    rewrite (IH Hp (pred lo) (option_map pred hi) (S pos)); auto.
    + simpl in Hlo; lia.
    + intros h Hh. destruct hi as [h'|]; [|discriminate].
      injection Hh as <-. specialize (Hhi h' eq_refl); simpl in Hhi; lia.
    + destruct Hend as [-> | Hs]; [left; reflexivity | now right].
    + now replace (S pos + length t) with (pos + length (c :: t))
        by (simpl; lia).
Qed.

(** [re.search] passes over the places where the pattern cannot start. *)
Lemma search_from_skip (r : regex A) (pre s : list A) :
  (forall c, In c pre -> forall pos s', match_here newline r pos (c :: s') = None) ->
  forall pos,
    search_from newline r pos (pre ++ s) =
    search_from newline r (pos + length pre) s.
Proof.
  induction pre as [|c pre IH]; intros H pos; simpl.
  - now rewrite Nat.add_0_r.
  - rewrite (H c (or_introl eq_refl)).
    rewrite IH by (intros c' Hc'; apply H; now right).
    f_equal; lia.
Qed.

Lemma search_from_here (r : regex A) (s : list A) (pos e : nat) :
  match_here newline r pos s = Some e ->
  search_from newline r pos s = Some (pos, e).
Proof. intros H; destruct s; simpl; now rewrite H. Qed.

(** [re.search] finds a match when there is one somewhere. *)
Lemma search_from_complete (r : regex A) (pre s : list A) (e : nat) :
  forall pos,
    match_here newline r (pos + length pre) s = Some e ->
    search_from newline r pos (pre ++ s) <> None.
Proof.
  induction pre as [|c pre IH]; intros pos H.
  - simpl in H; rewrite Nat.add_0_r in H.
    simpl app. now rewrite (search_from_here _ _ _ _ H).
  - simpl app; simpl search_from.
    destruct (match_here newline r pos (c :: pre ++ s)); [discriminate|].
    apply IH. now replace (S pos + length pre) with (pos + length (c :: pre))
      by (simpl; lia).
Qed.

Lemma match_here_many (r : regex A) lazy lo hi p pos (s : list A) :
  match_here newline (Many lazy lo hi p :: r) pos s =
  many (match_here newline r) lazy p lo hi pos s.
Proof. reflexivity. Qed.

End Complete.

(** * The first line of a page *)

Lemma spells_ignorecase (word : string) (w : str) :
  spells word w -> Forall2 (fun l c => ignorecase l c = true) (lit word) w.
Proof.
  unfold spells. generalize (lit word) as ls.
  induction w as [|c w IH]; intros ls H; simpl in H; subst ls; constructor.
  - unfold ignorecase. apply N.eqb_eq.
    unfold ascii_lower at 2.
    destruct ((65 <=? ascii_lower c)%N && (ascii_lower c <=? 90)%N) eqn:E; auto.
    exfalso. unfold ascii_lower in E.
    destruct ((65 <=? c)%N && (c <=? 90)%N) eqn:E'; [|congruence].
    apply andb_true_iff in E as [E1 E2], E' as [E3 E4].
    apply N.leb_le in E1, E2, E3, E4. lia.
  - now apply IH.
Qed.

(** The cases of [isspace c = true], each closed by arithmetic. *)
Ltac space_cases H :=
  unfold isspace in H;
  repeat (apply orb_true_iff in H as [H|H]);
  repeat (apply andb_true_iff in H as [? ?]);
  repeat match goal with
         | H' : (_ <=? _)%N = true |- _ => apply N.leb_le in H'
         | H' : (_ =? _)%N = true |- _ => apply N.eqb_eq in H'
         end;
  lia.

Lemma isspace_not_letter (l c : N) :
  (97 <= l <= 122)%N -> isspace c = true -> ignorecase l c = false.
Proof.
  intros Hl Hc. unfold ignorecase. apply N.eqb_neq. intros E.
  unfold ascii_lower in E.
  destruct ((65 <=? l)%N && (l <=? 90)%N) eqn:El.
  { apply andb_true_iff in El as [_ El]. apply N.leb_le in El. lia. }
  destruct ((65 <=? c)%N && (c <=? 90)%N) eqn:Ec.
  - apply andb_true_iff in Ec as [E1 E2]. apply N.leb_le in E1, E2.
    space_cases Hc.
  - subst c. space_cases Hc.
Qed.

Lemma isspace_not_digit (c : N) : isspace c = true -> ascii_digit c = false.
Proof.
  intros Hc. unfold ascii_digit.
  destruct ((48 <=? c)%N && (c <=? 57)%N) eqn:E; auto. exfalso.
  apply andb_true_iff in E as [E1 E2]. apply N.leb_le in E1, E2.
  space_cases Hc.
Qed.

(** The date pattern takes a date where it stands. *)
Lemma date_re_complete (m d y rest : str) (pos : nat) :
  forallb ascii_digit m = true -> 1 <= length m <= 2 ->
  forallb ascii_digit d = true -> 1 <= length d <= 2 ->
  forallb ascii_digit y = true -> length y = 4 ->
  match_here char_newline date_re pos
    ((m ++ [47%N] ++ d ++ [47%N] ++ y) ++ rest) =
  Some (pos + length (m ++ [47%N] ++ d ++ [47%N] ++ y)).
Proof.
  intros Hm Lm Hd Ld Hy Ly.
  rewrite <- !app_assoc. unfold date_re. simpl match_here.
  apply many_greedy_complete;
    [assumption | lia | intros h [= <-]; lia | now right |].
  simpl app; simpl match_here.
  apply many_greedy_complete;
    [assumption | lia | intros h [= <-]; lia | now right |].
  simpl app; simpl match_here.
  apply many_greedy_complete;
    [assumption | unfold char in *; lia
    | intros h [= <-]; unfold char in *; lia
    | left; unfold char in *; now rewrite Ly |].
  simpl. f_equal. rewrite !length_app. simpl. rewrite !length_app. simpl.
  unfold char in *. lia.
Qed.

Lemma date_re_digit_first (pos : nat) (c : char) (s : str) :
  ascii_digit c = false -> match_here char_newline date_re pos (c :: s) = None.
Proof. intros H; unfold date_re; simpl. now rewrite H. Qed.

Lemma spells_length (word : string) (w : str) :
  spells word w -> length w = length (lit word).
Proof. unfold spells; intros <-; now rewrite length_map. Qed.

(** The pattern of the run date takes a token where it stands. *)
Lemma run_date_re_complete (run ws1 date_ ws2 m d y rest : str) (pos : nat) :
  spells "run" run -> forallb isspace ws1 = true ->
  spells "date:" date_ -> forallb isspace ws2 = true ->
  forallb ascii_digit m = true -> 1 <= length m <= 2 ->
  forallb ascii_digit d = true -> 1 <= length d <= 2 ->
  forallb ascii_digit y = true -> length y = 4 ->
  match_here char_newline run_date_re pos
    ((run ++ ws1 ++ date_ ++ ws2 ++ m ++ [47%N] ++ d ++ [47%N] ++ y) ++ rest) =
  Some (pos + length
          (run ++ ws1 ++ date_ ++ ws2 ++ m ++ [47%N] ++ d ++ [47%N] ++ y)).
Proof.
  intros Hrun Hw1 Hdate Hw2 Hm Lm Hd Ld Hy Ly.
  pose proof (spells_length _ _ Hrun) as Lrun.
  pose proof (spells_length _ _ Hdate) as Ldate.
  apply spells_ignorecase in Hrun, Hdate.
  unfold run_date_re. rewrite <- !app_assoc.
  rewrite match_letters_complete by assumption.
  cbn [app]. rewrite match_here_many.
  apply many_lazy_complete with (q := ignorecase 100%N).
  - intros p c s' Hc. change (lit "date:") with [100; 97; 116; 101; 58]%N.
    cbn [map app match_here]. now rewrite Hc.
  - assumption.
  - apply forallb_forall; intros c Hc. rewrite forallb_forall in Hw1.
    rewrite (isspace_not_letter 100 c); auto. lia.
  - rewrite match_letters_complete by assumption.
    rewrite match_here_many.
    apply many_lazy_complete with (q := ascii_digit).
    + intros p c s' Hc. now apply date_re_digit_first.
    + assumption.
    + apply forallb_forall; intros c Hc. rewrite forallb_forall in Hw2.
      rewrite (isspace_not_digit c); auto.
    + match goal with
      | |- match_here _ _ ?p _ = _ =>
          pose proof (date_re_complete m d y rest p Hm Lm Hd Ld Hy Ly) as E
      end.
      rewrite <- !app_assoc in E; cbn [app] in E. unfold char, str in *.
      rewrite E.
      f_equal. rewrite !length_app, Lrun, Ldate. simpl. rewrite !length_app.
      simpl. unfold char in *. lia.
Qed.

Lemma ignorecase_not_digit (l c : N) :
  (58 <= l)%N -> ignorecase l c = true -> ascii_digit c = false.
Proof.
  intros Hl H. apply N.eqb_eq in H. unfold ascii_digit.
  destruct ((48 <=? c)%N && (c <=? 57)%N) eqn:E; auto. exfalso.
  apply andb_true_iff in E as [E1 E2]. apply N.leb_le in E1, E2.
  unfold ascii_lower in H.
  destruct ((65 <=? c)%N && (c <=? 90)%N) eqn:Ec.
  { apply andb_true_iff in Ec as [Ec _]. apply N.leb_le in Ec. lia. }
  destruct ((65 <=? l)%N && (l <=? 90)%N); lia.
Qed.

Lemma letters_no_digit (ls w : str) :
  Forall (fun l => (58 <= l)%N) ls ->
  Forall2 (fun l c => ignorecase l c = true) ls w ->
  forall c, In c w -> ascii_digit c = false.
Proof.
  intros Hl H; revert Hl.
  induction H as [|l c ls w H _ IH]; intros Hl x Hx; [destruct Hx|].
  inversion Hl; subst. destruct Hx as [<-|Hx]; eauto using ignorecase_not_digit.
Qed.

Lemma run_date_re_first (pos : nat) (c : char) (s : str) :
  ignorecase 114 c = false ->
  match_here char_newline run_date_re pos (c :: s) = None.
Proof.
  intros H. unfold run_date_re. change (lit "run") with [114; 117; 110]%N.
  cbn [map app match_here]. now rewrite H.
Qed.

Lemma margin_no_r (pre : str) (c : char) :
  margin pre -> In c pre -> ignorecase 114 c = false /\ ascii_digit c = false.
Proof.
  unfold margin; rewrite Forall_forall; intros H Hc.
  destruct (H c Hc) as (H1 & H2 & H3). split; [|assumption].
  apply N.eqb_neq. unfold ascii_lower; simpl.
  destruct ((65 <=? c)%N && (c <=? 90)%N) eqn:E; lia.
Qed.

(** The label of a token, up to its date, has no digit. *)
Lemma label_no_digit (run ws1 date_ ws2 : str) :
  spells "run" run -> forallb isspace ws1 = true ->
  spells "date:" date_ -> forallb isspace ws2 = true ->
  forall c, In c (run ++ ws1 ++ date_ ++ ws2) -> ascii_digit c = false.
Proof.
  intros Hrun Hw1 Hdate Hw2 c Hc.
  apply spells_ignorecase in Hrun, Hdate.
  rewrite forallb_forall in Hw1, Hw2.
  rewrite !in_app_iff in Hc. destruct Hc as [Hc|[Hc|[Hc|Hc]]].
  - apply (letters_no_digit (lit "run") run); auto.
    repeat constructor; discriminate.
  - apply isspace_not_digit; auto.
  - apply (letters_no_digit (lit "date:") date_); auto.
    repeat constructor; discriminate.
  - apply isspace_not_digit; auto.
Qed.

Lemma slice_tail {A} (pre d : list A) (k : nat) :
  slice (pre ++ d) (k + length pre) (k + length pre + length d) = skipn k d.
Proof.
  unfold slice. rewrite skipn_app.
  replace (k + length pre - length pre) with k by lia.
  rewrite skipn_all2 by lia. simpl.
  apply firstn_all2. rewrite length_skipn. lia.
Qed.

(** [extract_date] cuts the token out of the line and then applies to it
    the span that the date has in the whole line. When the token starts the
    line, the result is its date; when [k] characters without [r], [R] or a
    digit stand before it, the result is the date without its first [k]
    characters. *)
Theorem extract_date_after_margin :
  forall (pre run ws1 date_ ws2 m d y rest : str),
    margin pre ->
    spells "run" run -> forallb isspace ws1 = true ->
    spells "date:" date_ -> forallb isspace ws2 = true ->
    forallb ascii_digit m = true -> 1 <= length m <= 2 ->
    forallb ascii_digit d = true -> 1 <= length d <= 2 ->
    forallb ascii_digit y = true -> length y = 4 ->
    extract_date
      (pre ++ (run ++ ws1 ++ date_ ++ ws2 ++ m ++ [47%N] ++ d ++ [47%N] ++ y)
           ++ rest) =
    Ok (skipn (length pre) (m ++ [47%N] ++ d ++ [47%N] ++ y)).
Proof.
  intros pre run ws1 date_ ws2 m d y rest
    Hpre Hrun Hw1 Hdate Hw2 Hm Lm Hd Ld Hy Ly.
  unfold extract_date, re_search.
  rewrite search_from_skip
    by (intros c Hc pos s'; apply run_date_re_first;
        now apply (margin_no_r pre)).
  rewrite (search_from_here _ _ _ _ _ _
             (run_date_re_complete run ws1 date_ ws2 m d y rest _
                Hrun Hw1 Hdate Hw2 Hm Lm Hd Ld Hy Ly)).
  cbv zeta. simpl (0 + length pre).
  rewrite slice_middle.
  set (D := m ++ [47%N] ++ d ++ [47%N] ++ y).
  replace (pre ++ (run ++ ws1 ++ date_ ++ ws2 ++ D) ++ rest)
    with ((pre ++ run ++ ws1 ++ date_ ++ ws2) ++ D ++ rest)
    by (now rewrite <- !app_assoc).
  rewrite search_from_skip.
  2:{ intros c Hc pos s'. apply date_re_digit_first.
      apply in_app_iff in Hc as [Hc|Hc].
      - now apply (margin_no_r pre).
      - now apply (label_no_digit run ws1 date_ ws2). }
  unfold D at 1.
  rewrite (search_from_here _ _ _ _ _ _
             (date_re_complete m d y rest _ Hm Lm Hd Ld Hy Ly)).
  fold D. f_equal.
  replace (run ++ ws1 ++ date_ ++ ws2 ++ D)
    with ((run ++ ws1 ++ date_ ++ ws2) ++ D) by (now rewrite <- !app_assoc).
  rewrite length_app. simpl (0 + _).
  rewrite <- (slice_tail (run ++ ws1 ++ date_ ++ ws2) D (length pre)).
  f_equal; lia.
Qed.

(** On a line 0 with two blanks before the token: the month is lost. *)
Lemma extract_date_after_margin_witness :
  extract_date (lit "  Run Date: 1/2/2020  Page 1") = Ok (lit "2/2020").
Proof.
  apply (extract_date_after_margin (lit "  ") (lit "Run") (lit " ")
           (lit "Date:") (lit " ") (lit "1") (lit "2") (lit "2020")
           (lit "  Page 1"));
    try reflexivity; try (simpl; lia).
  repeat constructor; discriminate.
Defined.

(** [extract_date] returns a string exactly on the lines that have a
    [run date: D/D/YYYY] token somewhere, and raises on all others. *)
Theorem extract_date_iff_token :
  forall line : str,
    (exists date_, extract_date line = Ok date_) <-> has_run_date_token line.
Proof.
  intros line; split.
  - intros [date_ H]. unfold extract_date in H.
    destruct (re_search char_newline run_date_re line) as [span|] eqn:S;
      [|discriminate].
    now apply search_run_date_token in S.
  - intros (pre & t & post & -> & run & ws1 & date_ & ws2 & m & d & y & -> &
            Hrun & Hw1 & Hdate & Hw2 & Hm & Lm & Hd & Ld & Hy & Ly).
    unfold extract_date, re_search.
    match goal with
    | |- context [search_from char_newline run_date_re 0 ?l] =>
        destruct (search_from char_newline run_date_re 0 l)
          as [[a b]|] eqn:S
    end.
    2:{ exfalso; revert S.
        apply search_from_complete
          with (e := 0 + length pre + length
                  (run ++ ws1 ++ date_ ++ ws2 ++ m ++ [47%N] ++ d
                   ++ [47%N] ++ y)).
        now apply run_date_re_complete. }
    match goal with
    | |- context [search_from char_newline date_re 0 ?l] =>
        destruct (search_from char_newline date_re 0 l)
          as [[a' b']|] eqn:S'
    end; [eexists; reflexivity|].
    exfalso; revert S'.
    rewrite <- !app_assoc.
    rewrite (app_assoc run), (app_assoc (run ++ ws1)),
      (app_assoc ((run ++ ws1) ++ date_)), (app_assoc pre).
    match goal with
    | |- search_from _ _ _ (?p ++ _) = None -> False =>
        apply search_from_complete
          with (e := 0 + length p
                     + length (m ++ [47%N] ++ d ++ [47%N] ++ y))
    end.
    match goal with
    | |- match_here _ _ ?p _ = _ =>
        pose proof (date_re_complete m d y post p Hm Lm Hd Ld Hy Ly) as E
    end.
    rewrite <- !app_assoc in E. rewrite <- !app_assoc. exact E.
Qed.

(** * What the matcher took *)

Section Taken.

Variable A : Type.
Variable newline : A -> bool.

(** The letters of a word that the matcher passed. *)
Lemma match_letters_inv (f : N -> A -> bool) (ls : list N) (r : regex A) :
  forall pos (s : list A) e,
    match_here newline (map (fun l => One (f l)) ls ++ r) pos s = Some e ->
    exists w s',
      s = w ++ s' /\ Forall2 (fun l c => f l c = true) ls w /\
      match_here newline r (pos + length ls) s' = Some e.
Proof.
  induction ls as [|l ls IH]; intros pos s e H; simpl in H.
  - exists [], s. rewrite Nat.add_0_r. repeat split; auto.
  - destruct s as [|c s]; [discriminate|].
    destruct (f l c) eqn:F; [|discriminate].
    apply IH in H as (w & s' & -> & Hw & H).
    exists (c :: w), s'. repeat split; auto.
    now replace (pos + length (l :: ls)) with (S pos + length ls)
      by (simpl; lia).
Qed.

(** The run that a repetition took, and where the rest of the pattern went
    on. A lazy repetition without a lower bound passed only over places
    where the rest of the pattern could not go on. *)
Lemma many_inv (k : nat -> list A -> option nat) (lazy : bool)
    (p : A -> bool) :
  forall (s : list A) lo hi pos e,
    many k lazy p lo hi pos s = Some e ->
    exists t s',
      s = t ++ s' /\ forallb p t = true /\ k (pos + length t) s' = Some e /\
      (lazy = true -> lo = 0 ->
       forall i, i < length t -> k (pos + i) (skipn i s) = None).
Proof.
  induction s as [|c s IH]; intros lo hi pos e H;
    rewrite many_unfold in H; cbv zeta in H.
  - exists [], []. simpl. rewrite Nat.add_0_r.
    destruct lo; [|destruct lazy; discriminate].
    repeat split; [destruct lazy, (k pos []); congruence | intros; lia].
  - destruct lazy.
    + destruct lo as [|lo].
      * destruct (k pos (c :: s)) as [e'|] eqn:K.
        { injection H as ->. exists [], (c :: s). simpl.
          rewrite Nat.add_0_r. repeat split; auto. intros; lia. }
        destruct (p c && can_take hi) eqn:P; [|discriminate].
        apply andb_true_iff in P as [P _].
        apply IH in H as (t & s' & -> & Ht & Hk & Hno).
        exists (c :: t), s'. simpl. rewrite P, Ht.
        replace (pos + S (length t)) with (S pos + length t) by lia.
        repeat split; auto.
        intros _ _ [|i] Hi; simpl.
        { now rewrite Nat.add_0_r. }
        replace (pos + S i) with (S pos + i) by lia.
        apply Hno; auto. lia.
      * destruct (p c && can_take hi) eqn:P; [|discriminate].
        apply andb_true_iff in P as [P _].
        apply IH in H as (t & s' & -> & Ht & Hk & Hno).
        exists (c :: t), s'. simpl. rewrite P, Ht.
        replace (pos + S (length t)) with (S pos + length t) by lia.
        repeat split; auto. discriminate.
    + destruct (p c && can_take hi) eqn:P.
      * apply andb_true_iff in P as [P _].
        destruct (many k false p (pred lo) (option_map pred hi) (S pos) s)
          as [e'|] eqn:M.
        { injection H as ->.
          apply IH in M as (t & s' & -> & Ht & Hk & Hno).
          exists (c :: t), s'. simpl. rewrite P, Ht.
          replace (pos + S (length t)) with (S pos + length t) by lia.
          repeat split; auto. discriminate. }
        destruct lo; [|discriminate].
        exists [], (c :: s). simpl. rewrite Nat.add_0_r.
        repeat split; auto. discriminate.
      * destruct lo; [|discriminate].
        exists [], (c :: s). simpl. rewrite Nat.add_0_r.
        repeat split; auto. discriminate.
Qed.

End Taken.

(** * Pages *)

Lemma In_skipn {A} (x : A) (l : list A) :
  In x l -> exists i rest, i < length l /\ skipn i l = x :: rest.
Proof.
  induction l as [|a l IH]; intros H; [destruct H|].
  destruct H as [->|H].
  - exists 0, l; simpl; split; [lia | reflexivity].
  - destruct (IH H) as (i & rest & Hi & E).
    exists (S i), rest; simpl; split; [lia | assumption].
Qed.

Lemma page_feed_only (pos : nat) (s : bytes) (e : nat) :
  match_here byte_newline [One (byte_is 12%N)] pos s = Some e ->
  exists rest, s = page_feed :: rest /\ e = S pos.
Proof.
  destruct s as [|c s]; simpl; [discriminate|].
  destruct (byte_is 12 c) eqn:E; [|discriminate].
  apply (byte_is_eq 12 c x0c eq_refl) in E; subst c.
  intros [= <-]. now exists s.
Qed.

(** What the page separator takes is a whole page. *)
Lemma page_sep_takes (pos : nat) (s : bytes) (e : nat) :
  match_here byte_newline page_sep pos s = Some e ->
  exists chunk rest,
    s = chunk ++ rest /\ e = pos + length chunk /\ whole_page chunk.
Proof.
  unfold page_sep; intros H.
  apply match_letters_inv in H as (run & s1 & -> & Hrun & H).
  cbn [app] in H. rewrite match_here_many in H.
  apply many_inv in H as (blanks & s2 & -> & Hb & H & _).
  apply match_letters_inv in H as (date_ & s3 & -> & Hdate & H).
  cbn [app] in H. rewrite match_here_many in H.
  apply many_inv in H as (body & s4 & -> & _ & H & Hno).
  apply page_feed_only in H as (rest & -> & ->).
  exists (run ++ blanks ++ date_ ++ body ++ [page_feed]), rest.
  pose proof (Forall2_length Hrun) as Lrun.
  pose proof (Forall2_length Hdate) as Ldate.
  split; [now rewrite <- !app_assoc|]. split.
  { rewrite !length_app; simpl in *. lia. }
  exists run, blanks, date_, body. split; [reflexivity|].
  split; [now apply ignorecase_bytes_spells in Hrun|].
  split.
  { apply Forall_forall; intros b Hin.
    rewrite forallb_forall in Hb; specialize (Hb b Hin).
    symmetry; now apply (byte_is_eq 32 b x20 eq_refl). }
  split; [now apply ignorecase_bytes_spells in Hdate|].
  intros Hin. apply In_skipn in Hin as (i & tl & Hi & E).
  specialize (Hno eq_refl eq_refl i Hi).
  rewrite skipn_app, E in Hno.
  discriminate Hno.
Qed.

Section Spans.

Variable A : Type.
Variable newline : A -> bool.
Variable r : regex A.

(** Every slice that [finditer] cuts out is what the matcher took at the
    place where the slice starts. *)
Lemma finditer_from_taken (s : list A) :
  forall (pre : list A) (skip : nat),
    Forall (fun chunk =>
              exists pos rest,
                match_here newline r pos (chunk ++ rest)
                = Some (pos + length chunk))
           (map (fun span => slice (pre ++ s) (fst span) (snd span))
                (finditer_from newline r (length pre) skip s)).
Proof.
  induction s as [|c s IH]; intros pre skip; [constructor|].
  assert (Hpre : pre ++ c :: s = (pre ++ [c]) ++ s)
    by now rewrite <- app_assoc.
  assert (Hlen : S (length pre) = length (pre ++ [c]))
    by (rewrite length_app; simpl; lia).
  simpl finditer_from. destruct skip as [|skip].
  - destruct (match_here newline r (length pre) (c :: s)) as [e|] eqn:M.
    + pose proof M as M'.
      apply match_here_sound in M' as (m & rest & E & -> & _).
      simpl map; simpl fst; simpl snd. constructor.
      * rewrite E, slice_middle. exists (length pre), rest. now rewrite <- E.
      * rewrite Hpre, Hlen. apply IH.
    + rewrite Hpre, Hlen. apply IH.
  - rewrite Hpre, Hlen. apply IH.
Qed.

(** Past a match: the search goes on where the match ended. *)
Lemma finditer_from_pass (t s : list A) :
  forall pos,
    finditer_from newline r pos (length t) (t ++ s) =
    finditer_from newline r (pos + length t) 0 s.
Proof.
  induction t as [|c t IH]; intros pos; simpl.
  - rewrite Nat.add_0_r. now destruct s.
  - rewrite IH. f_equal; lia.
Qed.

Lemma finditer_from_match (c : A) (m s : list A) (pos : nat) :
  match_here newline r pos ((c :: m) ++ s) = Some (pos + length (c :: m)) ->
  finditer_from newline r pos 0 ((c :: m) ++ s) =
  (pos, pos + length (c :: m))
    :: finditer_from newline r (pos + length (c :: m)) 0 s.
Proof.
  intros H. simpl app in *. simpl finditer_from. rewrite H.
  replace (pos + length (c :: m) - pos - 1) with (length m) by (simpl; lia).
  rewrite finditer_from_pass. do 2 f_equal. simpl; lia.
Qed.

End Spans.

Lemma spells_bytes_ignorecase (word : string) (w : bytes) :
  spells word (map Byte.to_N w) ->
  Forall2 (fun l b => ignorecase l (Byte.to_N b) = true) (lit word) w.
Proof.
  intros H. apply spells_ignorecase in H.
  remember (map Byte.to_N w) as w' eqn:E. revert w E.
  induction H as [|l c ls w' H _ IH]; intros [|b w] E; try discriminate.
  - constructor.
  - injection E as -> ->. constructor; auto.
Qed.

(** The page separator takes a whole page where it stands. *)
Lemma page_sep_complete (chunk rest : bytes) (pos : nat) :
  whole_page chunk ->
  match_here byte_newline page_sep pos (chunk ++ rest)
  = Some (pos + length chunk).
Proof.
  intros (run & blanks & date_ & body & -> & Hrun & Hb & Hdate & Hno).
  apply spells_bytes_ignorecase in Hrun, Hdate.
  pose proof (Forall2_length Hrun) as Lrun.
  pose proof (Forall2_length Hdate) as Ldate.
  unfold page_sep. rewrite <- !app_assoc.
  rewrite match_letters_complete by assumption.
  cbn [app]. rewrite match_here_many.
  apply many_lazy_complete
    with (q := fun b => ignorecase 100%N (Byte.to_N b)).
  - intros p c s' Hc. change (lit "date") with [100; 97; 116; 101]%N.
    cbn [map app match_here]. now rewrite Hc.
  - apply forallb_forall; intros b Hin.
    rewrite Forall_forall in Hb. now rewrite <- (Hb b Hin).
  - apply forallb_forall; intros b Hin.
    rewrite Forall_forall in Hb. now rewrite <- (Hb b Hin).
  - rewrite match_letters_complete by assumption.
    rewrite match_here_many.
    apply many_lazy_complete with (q := byte_is 12%N).
    + intros p c s' Hc. cbn [match_here]. now rewrite Hc.
    + apply forallb_forall; reflexivity.
    + apply forallb_forall; intros b Hin.
      destruct (byte_is 12 b) eqn:E; [|reflexivity].
      apply (byte_is_eq 12 b x0c eq_refl) in E; subst b. now destruct Hno.
    + simpl. f_equal. rewrite !length_app; simpl in *. lia.
Qed.

Lemma whole_page_cons (chunk : bytes) :
  whole_page chunk -> exists c m, chunk = c :: m.
Proof.
  intros (run & blanks & date_ & body & -> & Hrun & _).
  destruct run as [|c run]; [discriminate|].
  simpl; eauto.
Qed.

(** Every chunk of the generator is a whole page: it starts with the
    marker and its only page feed is its last byte. *)
Theorem chunks_are_whole_pages :
  forall pdf_text : bytes, Forall whole_page (pages_of pdf_text).
Proof.
  intros pdf_text. unfold pages_of, finditer.
  pose proof (finditer_from_taken _ byte_newline page_sep pdf_text [] 0) as H.
  simpl in H. eapply Forall_impl; [|exact H].
  intros chunk (pos & rest & M).
  apply page_sep_takes in M as (chunk' & rest' & E & L & W).
  assert (L' : length chunk = length chunk') by lia.
  assert (chunk = chunk'); [|now subst].
  clear - E L'. revert chunk' E L'.
  induction chunk as [|c chunk IH]; intros [|c' chunk'] E L;
    try discriminate; [reflexivity|].
  simpl in E, L. injection E as -> E. f_equal. apply IH; auto.
Qed.

(** Whole pages put end to end come back one by one. *)
Theorem pages_of_concat :
  forall pages : list bytes,
    Forall whole_page pages -> pages_of (concat pages) = pages.
Proof.
  intros pages H. unfold pages_of, finditer.
  change (concat pages) with ([] ++ concat pages) at 1.
  change 0 with (length (@nil byte)) at 1.
  generalize (@nil byte) as pre.
  induction H as [|chunk pages W _ IH]; intros pre; [reflexivity|].
  simpl concat.
  destruct (whole_page_cons chunk W) as (c & m & E).
  pose proof (page_sep_complete chunk (concat pages) (length pre) W) as M.
  rewrite E in M |- *. rewrite finditer_from_match by exact M.
  rewrite <- E in *. simpl map; simpl fst; simpl snd.
  rewrite slice_middle. f_equal.
  rewrite app_assoc, <- length_app. apply IH.
Qed.

Lemma no_page_feed_iff (body : bytes) :
  forallb (fun b => negb (Byte.eqb b page_feed)) body = true ->
  ~ In page_feed body.
Proof.
  intros H Hin. rewrite forallb_forall in H. specialize (H _ Hin).
  discriminate.
Qed.

(** On the two sample pages, one after the other. *)
Lemma pages_of_concat_witness :
  pages_of (concat [page_with_footer; page_without_footer])
  = [page_with_footer; page_without_footer].
Proof.
  apply (pages_of_concat [page_with_footer; page_without_footer]).
  repeat constructor.
  - exists (blit "Run"), [x20], (blit "Date"),
      (skipn 8 (removelast page_with_footer)).
    repeat split; try reflexivity.
    + repeat constructor.
    + apply no_page_feed_iff; reflexivity.
  - exists (blit "Run"), [x20], (blit "Date"),
      (skipn 8 (removelast page_without_footer)).
    repeat split; try reflexivity.
    + repeat constructor.
    + apply no_page_feed_iff; reflexivity.
Defined.

(** * The runs of [pdftotext] *)

Section Tool.

Variable World : Type.
Variable Popen : list string -> World -> process * World.

Lemma find_first_page_in_first (pdf_file : string) (candidates : list nat) :
  (forall (command : list string) (w1 w2 : World),
      fst (Popen command w1) = fst (Popen command w2)) ->
  forall (w : World),
    match fst (find_first_page_in Popen pdf_file candidates w) with
    | Ok s =>
        exists before i after out,
          candidates = before ++ i :: after /\ s = str_of_nat i /\
          fst (is_first_page Popen pdf_file i w) = Ok out /\ out <> [] /\
          Forall (fun j => fst (is_first_page Popen pdf_file j w) = Ok [])
                 before
    | Raise e =>
        (e = ValueError (Text "More than two header pages detected") /\
         Forall (fun j => fst (is_first_page Popen pdf_file j w) = Ok [])
                candidates) \/
        (exists before i after,
            candidates = before ++ i :: after /\
            fst (is_first_page Popen pdf_file i w) = Raise e /\
            Forall (fun j => fst (is_first_page Popen pdf_file j w) = Ok [])
                   before)
    end.
Proof.
  intros same. induction candidates as [|i rest IH]; intros w; simpl.
  - left; split; [reflexivity | constructor].
  - assert (S : forall j w', fst (is_first_page Popen pdf_file j w')
                             = fst (is_first_page Popen pdf_file j w))
      by (intros; now apply is_first_page_same).
    destruct (is_first_page Popen pdf_file i w) as [[out|e] w1] eqn:E.
    + destruct out as [|b out]; simpl.
      * specialize (IH w1).
        destruct (fst (find_first_page_in Popen pdf_file rest w1))
          as [s|e].
        -- destruct IH as (before & k & after & out & -> & -> & H1 & H2 & H3).
           exists (i :: before), k, after, out.
           rewrite S in H1. repeat split; auto.
           constructor; [now rewrite E|].
           eapply Forall_impl; [|exact H3]. intros j Hj. now rewrite <- (S j w1).
        -- destruct IH as [[-> H]|(before & k & after & -> & H1 & H2)].
           ++ left; split; [reflexivity|].
              constructor; [now rewrite E|].
              eapply Forall_impl; [|exact H]. intros j Hj. now rewrite <- (S j w1).
           ++ right. exists (i :: before), k, after.
              rewrite S in H1. repeat split; auto.
              constructor; [now rewrite E|].
              eapply Forall_impl; [|exact H2].
              intros j Hj. now rewrite <- (S j w1).
      * exists [], i, rest, (b :: out).
        rewrite E. repeat split; auto. discriminate.
    + simpl. right. exists [], i, rest. rewrite E. repeat split; auto.
Qed.

End Tool.

Lemma seq_1_3_split (before : list nat) (i : nat) (after : list nat) :
  seq 1 3 = before ++ i :: after ->
  1 <= i <= 3 /\ before = seq 1 (i - 1).
Proof.
  intros E. change (seq 1 3) with [1; 2; 3] in E.
  destruct before as [|a [|b [|c before]]]; simpl in E; inversion E; subst;
    try (split; [lia | reflexivity]).
  destruct before; discriminate.
Qed.

(** [find_first_page] answers with the first of the pages 1, 2 and 3 for
    which [pdftotext] prints something, and raises its own error when it
    prints nothing for all three. *)
Theorem find_first_page_first_nonempty :
  forall (World : Type) (Popen : list string -> World -> process * World)
         (pdf_file : string) (w : World),
    (forall (command : list string) (w1 w2 : World),
        fst (Popen command w1) = fst (Popen command w2)) ->
    (forall i : nat,
        1 <= i <= 3 ->
        (fst (find_first_page Popen pdf_file w) = Ok (str_of_nat i) <->
         (exists out,
             fst (is_first_page Popen pdf_file i w) = Ok out /\ out <> []) /\
         (forall j, 1 <= j < i ->
                    fst (is_first_page Popen pdf_file j w) = Ok []))) /\
    (forall s : string,
        fst (find_first_page Popen pdf_file w) = Ok s ->
        exists i, 1 <= i <= 3 /\ s = str_of_nat i) /\
    (fst (find_first_page Popen pdf_file w)
       = Raise (ValueError (Text "More than two header pages detected")) <->
     forall j, 1 <= j <= 3 ->
               fst (is_first_page Popen pdf_file j w) = Ok []).
Proof.
  intros World Popen pdf_file w same.
  pose proof (find_first_page_in_first World Popen pdf_file (seq 1 3) same w)
    as H.
  unfold find_first_page.
  assert (Hseq : forall i j, 1 <= j < i -> In j (seq 1 (i - 1)))
    by (intros i j Hj; apply in_seq; lia).
  assert (Hstr : forall i k, 1 <= i <= 3 -> 1 <= k <= 3 ->
                             str_of_nat k = str_of_nat i -> k = i).
  { intros i k Hi Hk.
    assert (Ei : i = 1 \/ i = 2 \/ i = 3) by lia.
    assert (Ek : k = 1 \/ k = 2 \/ k = 3) by lia.
    destruct Ei as [-> | [-> | ->]], Ek as [-> | [-> | ->]];
      vm_compute; congruence. }
  destruct (fst (find_first_page_in Popen pdf_file (seq 1 3) w)) as [s|e].
  - destruct H as (before & k & after & out & E & -> & H1 & H2 & H3).
    apply seq_1_3_split in E as [Hk ->]. rewrite Forall_forall in H3.
    split; [|split].
    + intros i Hi; split.
      * intros [= Es]. apply Hstr in Es; auto; subst k.
        split; [now exists out|]. intros j Hj. apply H3. now apply Hseq.
      * intros [(out' & O1 & O2) Hbefore].
        destruct (Nat.lt_trichotomy i k) as [L|[->|L]]; [| reflexivity |].
        -- rewrite H3 in O1 by (apply Hseq; lia). congruence.
        -- rewrite Hbefore in H1 by lia. congruence.
    + intros s [= <-]. now exists k.
    + split; [discriminate|]. intros Hall.
      rewrite Hall in H1 by lia. congruence.
  - split; [|split].
    + intros i Hi; split; [discriminate|].
      intros [(out' & O1 & O2) Hbefore]. exfalso.
      destruct H as [[_ H]|(before & k & after & E & H1 & H2)].
      * rewrite Forall_forall in H.
        rewrite H in O1 by (apply in_seq; lia). congruence.
      * apply seq_1_3_split in E as [Hk ->]. rewrite Forall_forall in H2.
        destruct (Nat.lt_trichotomy i k) as [L|[->|L]].
        -- rewrite H2 in O1 by (apply Hseq; lia). congruence.
        -- congruence.
        -- rewrite Hbefore in H1 by lia. congruence.
    + discriminate.
    + split.
      * intros [= ->] j Hj.
        destruct H as [[_ H]|(before & k & after & E & H1 & H2)].
        -- rewrite Forall_forall in H. apply H, in_seq; lia.
        -- exfalso. revert H1. unfold is_first_page.
           destruct (Popen _ w) as [[|rc out] w1]; simpl; [discriminate|].
           destruct (rc =? 0)%Z; discriminate.
      * intros Hall.
        destruct H as [[-> _]|(before & k & after & E & H1 & H2)];
          [reflexivity|].
        apply seq_1_3_split in E as [Hk ->].
        rewrite Hall in H1 by lia. discriminate.
Qed.

(** On the file with a cover page: page 1 prints text, and the answer is
    page 1. *)
Lemma find_first_page_first_nonempty_witness :
  fst (find_first_page pdftotext_with_cover "1_2020.pdf" 0) = Ok "1"%string.
Proof.
  apply (proj1 (find_first_page_first_nonempty nat pdftotext_with_cover
                  "1_2020.pdf" 0 (fun command w1 w2 => eq_refl))
           1 (conj (le_n 1) (le_S 1 2 (le_S 1 1 (le_n 1))))).
  split.
  - exists cover_page. split; [reflexivity | discriminate].
  - intros j Hj; lia.
Defined.

Ltac all_runs Popen :=
  unfold parse_pdf_index, yield_pages_as_bytes, get_pdf_text_bytes,
    find_first_page;
  simpl; unfold is_first_page, logged; simpl;
  repeat match goal with
         | |- context [Popen ?c ?w] =>
             destruct (Popen c w) as [[|? [|? ?]] ?]; simpl
         | |- context [(?rc =? 0)%Z] =>
             let E := fresh "E" in
             destruct (rc =? 0)%Z eqn:E; simpl;
             [apply Z.eqb_eq in E; subst rc | apply Z.eqb_neq in E]
         end.

(** [parse_pdf_index] runs [pdftotext] on single pages, from page 1 on and
    three times at most, then once at most from the page it stopped at;
    it runs nothing else, and it has made that last run whenever it gets
    as far as the pages. *)
Theorem parse_pdf_index_commands :
  forall (py : interp) (World : Type)
         (Popen : list string -> World -> process * World)
         (pdf_file : string) (w : World),
    let run := parse_pdf_index py (logged Popen) pdf_file (w, []) in
    let commands := map fst (snd (snd run)) in
    exists k,
      1 <= k <= 3 /\
      (commands = map (one_page_command pdf_file) (seq 1 k) \/
       commands = map (one_page_command pdf_file) (seq 1 k)
                  ++ [from_page_command pdf_file (str_of_nat k)]) /\
      (forall pdf_text w',
          get_pdf_text_bytes (logged Popen) pdf_file (w, [])
            = (Ok pdf_text, w') ->
          commands = map (one_page_command pdf_file) (seq 1 k)
                     ++ [from_page_command pdf_file (str_of_nat k)]).
Proof.
  intros py World Popen pdf_file w; cbv zeta.
  all_runs Popen;
    first
      [ exists 1; split; [lia|]; split;
        [ first [left; reflexivity | right; reflexivity]
        | intros; first [discriminate | reflexivity] ]
      | exists 2; split; [lia|]; split;
        [ first [left; reflexivity | right; reflexivity]
        | intros; first [discriminate | reflexivity] ]
      | exists 3; split; [lia|]; split;
        [ first [left; reflexivity | right; reflexivity]
        | intros; first [discriminate | reflexivity] ] ].
Qed.

(** A run of [pdftotext] that cannot start or that exits with another code
    than 0 is the last run: every run before the last one exited with 0,
    and [parse_pdf_index] raises [RuntimeError] when the last one could
    not start and the [ValueError] of a failed parse when it exited with
    another code. *)
Theorem failed_run_is_last :
  forall (py : interp) (World : Type)
         (Popen : list string -> World -> process * World)
         (pdf_file : string) (w : World),
    let run := parse_pdf_index py (logged Popen) pdf_file (w, []) in
    let runs := snd (snd run) in
    let final := snd (last runs ([], Exited 0 [])) in
    runs <> [] /\
    Forall (fun entry => exists out, snd entry = Exited 0 out)
           (removelast runs) /\
    (final = OSError ->
     fst run = Raise (RuntimeError (Text
       "It looks like you are not running Linux or dont have pdftotext installed")))
    /\
    (forall rc out,
        final = Exited rc out -> rc <> 0%Z ->
        fst run = Raise (ValueError (Text "Malformed data. Parse failed."))).
Proof.
  intros py World Popen pdf_file w; cbv zeta.
  all_runs Popen;
    (split; [discriminate|]; split;
     [repeat (apply Forall_cons; [eexists; reflexivity|]); apply Forall_nil|];
     split;
     [ intros H; first [discriminate H | reflexivity]
     | intros rc' out' H Hrc;
       first [discriminate H | reflexivity | inversion H; subst; congruence]
     ]).
Qed.

(** * The body of a page *)

Lemma first_at_find (label line : str) (i : nat) :
  first_at label line i -> find label line = Some i.
Proof.
  intros H. destruct (find label line) as [k|] eqn:F.
  - apply find_first_at in F. f_equal. now apply (first_at_unique label line).
  - destruct H as [H _]. now apply (find_none _ _ F) in H.
Qed.

Lemma lstrip_keeps_last (l : str) (a : char) :
  isspace a = false -> exists v, lstrip (l ++ [a]) = v ++ [a].
Proof.
  intros Ha. induction l as [|b l IH]; simpl.
  - rewrite Ha. now exists [].
  - destruct (isspace b); [exact IH|]. now exists (b :: l).
Qed.

Lemma strip_trimmed (s : str) : trimmed (strip s).
Proof.
  split.
  - intros c t H. unfold strip, rstrip in H.
    destruct (lstrip s) as [|a u] eqn:L; [discriminate|].
    pose proof (lstrip_head _ _ _ L) as Ha.
    simpl in H.
    destruct (lstrip_keeps_last (rev u) a Ha) as [v E].
    rewrite E, rev_unit in H. now injection H as <- _.
  - intros t c H. now apply strip_last in H.
Qed.

Section Body.

Variable py : interp.

(** A page that parses got as far as the loop over its lines. *)
Lemma parse_page_lines (page_ : bytes) securities expected_lines :
  parse_page py page_ = Ok (securities, expected_lines) ->
  exists text date_ pagenum cusip_s issuer_s descrp_s,
    decode (removelast page_) = Ok text /\
    parse_lines py date_ pagenum cusip_s issuer_s descrp_s
      (skipn 4 (split line_feed text)) [] None
    = Ok (securities, expected_lines).
Proof.
  induction page_ as [|final body _] using rev_ind; [discriminate|].
  rewrite parse_page_feed, removelast_last.
  destruct (Byte.eqb final page_feed); [|discriminate].
  destruct (decode body) as [text|]; [|discriminate]; simpl.
  unfold parse_text.
  repeat match goal with
         | |- context [bind ?m _] =>
             destruct m; simpl; [|discriminate]
         end.
  intros H. eauto 10.
Qed.

(** The count that the loop leaves: the one it came with when no line is
    the footer, and otherwise the number that the digits of the last
    footer line spell. *)
Lemma parse_lines_expected date_ pagenum cusip_s issuer_s descrp_s :
  forall lines securities expected_lines securities' expected_lines',
    parse_lines py date_ pagenum cusip_s issuer_s descrp_s lines
      securities expected_lines = Ok (securities', expected_lines') ->
    (Forall (fun line => is_footer_line py line = false) lines /\
     expected_lines' = expected_lines) \/
    (exists before line after n,
        lines = before ++ line :: after /\
        is_footer_line py line = true /\
        Forall (fun line => is_footer_line py line = false) after /\
        int py (filter (isdigit py) line) = Ok n /\
        expected_lines' = Some n).
Proof.
  induction lines as [|line rest IH]; intros secs e secs' e' H; simpl in H.
  - injection H as _ <-. left; split; [constructor | reflexivity].
  - assert (E : is_footer_line py line =
                 negb (is_empty (strip line))
                 && contains (lit "total count") (lower py line))
      by reflexivity.
    assert (Hcons :
              forall secs0 e0,
                parse_lines py date_ pagenum cusip_s issuer_s descrp_s rest
                  secs0 e0 = Ok (secs', e') ->
                is_footer_line py line = false ->
                (Forall (fun line => is_footer_line py line = false)
                        (line :: rest) /\ e' = e0) \/
                (exists before line0 after n,
                    line :: rest = before ++ line0 :: after /\
                    is_footer_line py line0 = true /\
                    Forall (fun line => is_footer_line py line = false)
                           after /\
                    int py (filter (isdigit py) line0) = Ok n /\
                    e' = Some n)).
    { intros secs0 e0 H0 Hl. apply IH in H0
        as [[H1 H2]|(before & line0 & after & n & -> & H1 & H2 & H3 & H4)].
      - left; split; [now constructor | assumption].
      - right. exists (line :: before), line0, after, n. repeat split; auto. }
    destruct (is_empty (strip line)); simpl in E.
    { now apply Hcons in H. }
    destruct (contains (lit "total count") (lower py line)); simpl in E.
    + destruct (int py (filter (isdigit py) line)) as [n|] eqn:I;
        simpl in H; [|discriminate].
      right. apply IH in H
        as [[H1 H2]|(before & line0 & after & n0 & -> & H1 & H2 & H3 & H4)].
      * exists [], line, rest, n. repeat split; auto.
      * exists (line :: before), line0, after, n0. repeat split; auto.
    + match type of H with
      | context [re_match ?a ?b ?c] => destruct (re_match a b c)
      end; [|discriminate].
      now apply Hcons in H.
Qed.

End Body.

(** The count of a page that parses is absent exactly when no line after
    the header is the footer; otherwise it is the number that the digit
    characters of the last footer line spell, all of them read as one
    number. *)
Theorem page_count_from_last_footer :
  forall (py : interp) (page_ : bytes) (securities : list security)
         (expected_lines : option N),
    parse_page py page_ = Ok (securities, expected_lines) ->
    exists text,
      decode (removelast page_) = Ok text /\
      match expected_lines with
      | None =>
          Forall (fun line => is_footer_line py line = false)
                 (skipn 4 (split line_feed text))
      | Some n =>
          exists before line after,
            skipn 4 (split line_feed text) = before ++ line :: after /\
            is_footer_line py line = true /\
            Forall (fun line => is_footer_line py line = false) after /\
            int py (filter (isdigit py) line) = Ok n
      end.
Proof.
  intros py page_ securities expected_lines H.
  apply parse_page_lines in H
    as (text & date_ & pagenum & cs & us & ds & D & H).
  exists text; split; [assumption|].
  apply parse_lines_expected in H
    as [[H1 ->]|(before & line & after & n & E & H1 & H2 & H3 & ->)].
  - assumption.
  - now exists before, line, after.
Qed.

(** On [page_with_footer], whose footer says 1. *)
Lemma page_count_from_last_footer_witness :
  exists text,
    decode (removelast page_with_footer) = Ok text /\
    exists before line after,
      skipn 4 (split line_feed text) = before ++ line :: after /\
      is_footer_line ascii_python line = true /\
      Forall (fun line => is_footer_line ascii_python line = false) after /\
      int ascii_python (filter (isdigit ascii_python) line) = Ok 1%N.
Proof.
  apply (page_count_from_last_footer ascii_python page_with_footer
           [sample_security] (Some 1%N)).
  reflexivity.
Defined.

(** The text fields of every record of a page that parses have no white
    space at either end. *)
Theorem records_are_trimmed :
  forall (py : interp) (page_ : bytes) (securities : list security)
         (expected_lines : option N),
    parse_page py page_ = Ok (securities, expected_lines) ->
    Forall (fun s => trimmed (cusip s) /\ trimmed (issuer s)
                     /\ trimmed (description s))
           securities.
Proof.
  intros py page_ securities expected_lines H.
  apply parse_page_ok_inv in H
    as (body & text & l0 & l1 & l2 & l3 & rest & date_ & pagenum
        & cs & us & ds & _ & _ & _ & _ & _ & _ & _ & _ & _ & -> & _).
  apply Forall_forall; intros s Hin.
  apply in_map_iff in Hin as (line & <- & _).
  unfold security_of; cbn [cusip issuer description].
  repeat split; apply strip_trimmed.
Qed.

(** On [page_with_footer]. *)
Lemma records_are_trimmed_witness :
  Forall (fun s => trimmed (cusip s) /\ trimmed (issuer s)
                   /\ trimmed (description s))
         [sample_security].
Proof.
  apply (records_are_trimmed ascii_python page_with_footer
           [sample_security] (Some 1%N)).
  reflexivity.
Defined.

(** A page of fewer than four lines never parses: [parse_page] raises the
    [ValueError] of the header (one of the lines it has fails its test) or
    [IndexError] (the test of a line it does not have). *)
Theorem short_page_rejected :
  forall (py : interp) (body : bytes) (text : str),
    decode body = Ok text ->
    length (split line_feed text) < 4 ->
    parse_page py (body ++ [page_feed])
      = Raise (ValueError (Text "Malformed page header.")) \/
    parse_page py (body ++ [page_feed]) = Raise IndexError.
Proof.
  intros py body text D L.
  rewrite parse_page_feed; simpl; rewrite D; simpl.
  unfold parse_text.
  destruct (split line_feed text) as [|l0 [|l1 [|l2 [|l3 tl]]]];
    simpl in L; try lia;
    unfold validate_header, or_else, bind, index; simpl;
    repeat match goal with
           | |- context [contains ?a ?b] =>
               destruct (contains a b); simpl; [|now left]
           | |- context [is_empty ?a] =>
               destruct (is_empty a); simpl; [|now left]
           end;
    now right.
Qed.

(** On [cover_page], which has two lines. *)
Lemma short_page_rejected_witness :
  parse_page ascii_python cover_page
    = Raise (ValueError (Text "Malformed page header.")) \/
  parse_page ascii_python cover_page = Raise IndexError.
Proof.
  apply (short_page_rejected ascii_python (removelast cover_page)
           (map Byte.to_N (removelast cover_page))).
  - reflexivity.
  - vm_compute; lia.
Defined.

(** The first page that fails ends the document with its exception,
    whatever the pages before it gave and whatever comes after it. *)
Theorem first_failing_page_ends_document :
  forall (py : interp) (good : list bytes) (bad : bytes) (rest : list bytes)
         (results : list (list security * option N)) (e : exn),
    map (parse_page py) good = map Ok results ->
    parse_page py bad = Raise e ->
    parse_document py (good ++ bad :: rest) = Raise e.
Proof.
  intros py good bad rest results e Hgood Hbad.
  unfold parse_document.
  assert (H : forall secs b,
             parse_pages py (good ++ bad :: rest) secs b = Raise e).
  { revert results Hgood.
    induction good as [|page_ good IH]; intros results Hgood secs b;
      destruct results as [|r results]; try discriminate; simpl.
    - now rewrite Hbad.
    - injection Hgood as Hp Hgood. rewrite Hp; simpl. now apply (IH results). }
  now rewrite H.
Qed.

(** On three pages, the second with a malformed CUSIP. *)
Lemma first_failing_page_ends_document_witness :
  parse_document ascii_python
    [page_with_footer; page_with_bad_cusip; page_without_footer]
  = Raise (NameError "MalformedDataError").
Proof.
  apply (first_failing_page_ends_document ascii_python [page_with_footer]
           page_with_bad_cusip [page_without_footer]
           [([sample_security], Some 1%N)]).
  - reflexivity.
  - reflexivity.
Defined.

(** * Pages that parse *)

(** The pattern of the CUSIP takes every well-formed CUSIP. *)
Lemma cusip_re_complete (c : str) :
  well_formed_cusip c -> re_match char_newline cusip_re c = Some 11.
Proof.
  intros (g1 & g2 & g3 & -> & L1 & L2 & L3 & A1 & A2 & A3).
  unfold re_match, cusip_re. cbn [match_here].
  unfold char, str in *.
  apply many_greedy_complete;
    [assumption | lia | intros h [= <-]; lia | left; now rewrite L1 |].
  cbn [app match_here]. change (is_char 32%N 32%N) with true. cbv iota.
  apply many_greedy_complete;
    [assumption | lia | intros h [= <-]; lia | left; now rewrite L2 |].
  cbn [app match_here]. change (is_char 32%N 32%N) with true. cbv iota.
  rewrite <- (app_nil_r g3).
  apply many_greedy_complete;
    [assumption | lia | intros h [= <-]; lia | left; now rewrite L3 |].
  cbn [match_here at_end]. f_equal. lia.
Qed.

Section Accepts.

Variable py : interp.

(** The loop passes the lines whose CUSIP is well formed, when they are
    data lines, and whose digits are a number, when they are footers, and
    goes on with the lines after them. *)
Lemma parse_lines_prefix date_ pagenum cusip_s issuer_s descrp_s :
  forall lines securities expected_lines,
    Forall (fun line =>
              is_data_line py line = true ->
              well_formed_cusip
                (cusip (security_of date_ pagenum cusip_s issuer_s descrp_s
                          line)))
           lines ->
    Forall (fun line =>
              is_footer_line py line = true ->
              exists n, int py (filter (isdigit py) line) = Ok n)
           lines ->
    exists expected_lines',
      forall tail,
        parse_lines py date_ pagenum cusip_s issuer_s descrp_s
          (lines ++ tail) securities expected_lines
        = parse_lines py date_ pagenum cusip_s issuer_s descrp_s tail
            (securities ++
             map (security_of date_ pagenum cusip_s issuer_s descrp_s)
                 (filter (is_data_line py) lines))
            expected_lines'.
Proof.
  induction lines as [|line rest IH]; intros secs e Hd Hf.
  - exists e. intros tail. simpl. now rewrite app_nil_r.
  - inversion Hd as [|? ? Hd1 Hd2]; inversion Hf as [|? ? Hf1 Hf2]; subst.
    assert (E1 : is_data_line py line =
                  negb (is_empty (strip line))
                  && negb (contains (lit "total count") (lower py line)))
      by reflexivity.
    assert (E2 : is_footer_line py line =
                  negb (is_empty (strip line))
                  && contains (lit "total count") (lower py line))
      by reflexivity.
    cbn [app parse_lines filter]. rewrite E1.
    destruct (is_empty (strip line)); simpl in *; [now apply IH|].
    destruct (contains (lit "total count") (lower py line)); simpl in *.
    + destruct (Hf1 E2) as [n ->]; simpl. now apply IH.
    + rewrite (cusip_re_complete _ (Hd1 E1)).
      destruct (IH (secs ++ [security_of date_ pagenum cusip_s issuer_s
                               descrp_s line]) e Hd2 Hf2) as [e' H].
      exists e'. intros tail. now rewrite H, <- app_assoc.
Qed.

(** With a conforming header, a date and a page number, [parse_page] is
    the loop over the lines after the header. *)
Lemma parse_page_body (body : bytes) (text l0 l1 l2 l3 : str)
    (rest : list str) (date_ : str) (pagenum : N)
    (cusip_s issuer_s descrp_s : nat) :
  decode body = Ok text ->
  split line_feed text = l0 :: l1 :: l2 :: l3 :: rest ->
  header_conforms py l0 l1 l2 l3 ->
  extract_date l0 = Ok date_ ->
  extract_pagenum py l0 = Ok pagenum ->
  first_at (lit "CUSIP NO") l3 cusip_s ->
  first_at (lit "ISSUER NAME") l3 issuer_s ->
  first_at (lit "ISSUER DESCRIPTION") l3 descrp_s ->
  parse_page py (body ++ [page_feed]) =
  parse_lines py date_ pagenum cusip_s issuer_s descrp_s rest [] None.
Proof.
  intros D S Hh Hd Hp H1 H2 H3.
  rewrite parse_page_feed; simpl; rewrite D; simpl.
  unfold parse_text. rewrite S. simpl firstn.
  rewrite validate_header_four.
  apply header_ok_conforms in Hh. rewrite Hh; simpl.
  unfold index; simpl. rewrite Hd, Hp; simpl.
  rewrite !label_span_find.
  now rewrite (first_at_find _ _ _ H1), (first_at_find _ _ _ H2),
    (first_at_find _ _ _ H3).
Qed.

(** The pattern of the CUSIP takes nothing else from [strip]. *)
Lemma cusip_re_stripped (s : str) :
  re_match char_newline cusip_re (strip s) <> None ->
  well_formed_cusip (strip s).
Proof.
  destruct (re_match char_newline cusip_re (strip s)) as [e|] eqn:M;
    [intros _ | congruence].
  apply match_here_sound in M as (m & tail & E & _ & Hm).
  apply cusip_re_shape in Hm as [Hw [-> | ->]].
  - now rewrite E, app_nil_r.
  - simpl in E. apply strip_last in E. discriminate.
Qed.

End Accepts.

(** A page parses, and gives one record for each data line, when its four
    header lines conform, its line 0 gives a date and a page number, the
    CUSIP column of every data line is well formed once the marker and the
    blanks are removed, and the digits of every footer line are a
    number. *)
Theorem well_formed_page_parses :
  forall (py : interp) (body : bytes) (text l0 l1 l2 l3 : str)
         (rest : list str) (date_ : str) (pagenum : N)
         (cusip_s issuer_s descrp_s : nat),
    decode body = Ok text ->
    split line_feed text = l0 :: l1 :: l2 :: l3 :: rest ->
    header_conforms py l0 l1 l2 l3 ->
    extract_date l0 = Ok date_ ->
    extract_pagenum py l0 = Ok pagenum ->
    first_at (lit "CUSIP NO") l3 cusip_s ->
    first_at (lit "ISSUER NAME") l3 issuer_s ->
    first_at (lit "ISSUER DESCRIPTION") l3 descrp_s ->
    Forall (fun line =>
              is_data_line py line = true ->
              well_formed_cusip
                (strip (replace (lit "*") []
                          (slice line cusip_s issuer_s))))
           rest ->
    Forall (fun line =>
              is_footer_line py line = true ->
              exists n, int py (filter (isdigit py) line) = Ok n)
           rest ->
    exists expected_lines,
      parse_page py (body ++ [page_feed])
      = Ok (map (security_of date_ pagenum cusip_s issuer_s descrp_s)
                (filter (is_data_line py) rest),
            expected_lines).
Proof.
  intros py body text l0 l1 l2 l3 rest date_ pagenum cusip_s issuer_s
    descrp_s D S Hh Hd Hp H1 H2 H3 Hc Hf.
  rewrite (parse_page_body py body text l0 l1 l2 l3 rest date_ pagenum
             cusip_s issuer_s descrp_s D S Hh Hd Hp H1 H2 H3).
  destruct (parse_lines_prefix py date_ pagenum cusip_s issuer_s descrp_s
              rest [] None Hc Hf) as [e H].
  specialize (H []). rewrite app_nil_r in H. rewrite H.
  now exists e.
Qed.

(** On [page_with_footer]. *)
Lemma well_formed_page_parses_witness :
  exists expected_lines,
    parse_page ascii_python page_with_footer
    = Ok (map (security_of (lit "1/2/2020") 1 0 13 33)
              (filter (is_data_line ascii_python)
                 [lit "123456 78 9  ACME CORP           WIDGET MAKER";
                  lit "total count: 1"; []]),
          expected_lines).
Proof.
  apply (well_formed_page_parses ascii_python
           (removelast page_with_footer)
           (map Byte.to_N (removelast page_with_footer))
           (lit "Run Date: 1/2/2020  Page 1")
           (lit "Run Time: 10:00  Year 2020")
           []
           (lit "CUSIP NO     ISSUER NAME         ISSUER DESCRIPTION   STATUS")
           [lit "123456 78 9  ACME CORP           WIDGET MAKER";
            lit "total count: 1"; []]
           (lit "1/2/2020") 1 0 13 33).
  - reflexivity.
  - reflexivity.
  - apply header_ok_conforms; reflexivity.
  - reflexivity.
  - reflexivity.
  - apply find_first_at; reflexivity.
  - apply find_first_at; reflexivity.
  - apply find_first_at; reflexivity.
  - repeat constructor; try discriminate.
    intros _. exists (lit "123456"), (lit "78"), (lit "9").
    repeat split.
  - repeat constructor; try discriminate.
    intros _. now exists 1%N.
Defined.

(** * The page number *)

Lemma page_re_first (pos : nat) (c : char) (s : str) :
  ignorecase 112 c = false ->
  match_here char_newline page_re pos (c :: s) = None.
Proof.
  intros H. unfold page_re. change (lit "page") with [112; 97; 103; 101]%N.
  cbn [map app match_here]. now rewrite H.
Qed.

(** The pattern of the page number takes a token where it stands. *)
Lemma page_re_complete (w ws ds rest : str) (pos : nat) :
  spells "page" w -> forallb isspace ws = true ->
  forallb ascii_digit ds = true -> 1 <= length ds <= 40 ->
  length ds = 40 \/
    match rest with [] => True | c :: _ => ascii_digit c = false end ->
  match_here char_newline page_re pos ((w ++ ws ++ ds) ++ rest) =
  Some (pos + length (w ++ ws ++ ds)).
Proof.
  intros Hw Hws Hds Lds Hend.
  pose proof (spells_length _ _ Hw) as Lw.
  apply spells_ignorecase in Hw.
  unfold page_re. rewrite <- !app_assoc.
  rewrite match_letters_complete by assumption.
  rewrite match_here_many.
  unfold char, str in *.
  apply many_lazy_complete with (q := ascii_digit).
  - intros p c s' Hc. rewrite match_here_many, many_unfold. cbv zeta.
    now rewrite Hc.
  - assumption.
  - apply forallb_forall; intros c Hc. rewrite forallb_forall in Hws.
    rewrite (isspace_not_digit c); auto.
  - rewrite match_here_many.
    apply many_greedy_complete;
      [assumption | lia | intros h [= <-]; lia | |].
    + destruct Hend as [-> | Hend]; [now left | now right].
    + cbn [match_here]. f_equal. rewrite !length_app. simpl in *.
      unfold char in *. lia.
Qed.

Lemma spells_ascii (word : string) (w : str) :
  spells word w -> forallb is_ascii (lit word) = true ->
  forallb is_ascii w = true.
Proof.
  unfold spells. intros <-. induction w as [|c w IH]; simpl; [reflexivity|].
  intros H. apply andb_true_iff in H as [H1 H2].
  rewrite (IH H2), andb_true_r.
  unfold is_ascii, ascii_lower in *.
  destruct ((65 <=? c)%N && (c <=? 90)%N) eqn:E.
  - apply andb_true_iff in E as [_ E]. apply N.leb_le in E.
    apply N.ltb_lt. lia.
  - assumption.
Qed.

Lemma digits_ascii (ds : str) :
  forallb ascii_digit ds = true -> forallb is_ascii ds = true.
Proof.
  induction ds as [|c ds IH]; simpl; [reflexivity|].
  intros H. apply andb_true_iff in H as [H1 H2]. rewrite (IH H2), andb_true_r.
  unfold ascii_digit in H1. apply andb_true_iff in H1 as [_ H1].
  apply N.leb_le in H1. apply N.ltb_lt. lia.
Qed.

Lemma lower_space (ws : str) :
  forallb isspace ws = true -> map ascii_lower ws = ws.
Proof.
  induction ws as [|c ws IH]; simpl; [reflexivity|].
  intros H. apply andb_true_iff in H as [H1 H2]. rewrite (IH H2). f_equal.
  unfold ascii_lower.
  destruct ((65 <=? c)%N && (c <=? 90)%N) eqn:E; [|reflexivity].
  exfalso. apply andb_true_iff in E as [E1 E2]. apply N.leb_le in E1, E2.
  space_cases H1.
Qed.

Lemma lower_digits (ds : str) :
  forallb ascii_digit ds = true -> map ascii_lower ds = ds.
Proof.
  induction ds as [|c ds IH]; simpl; [reflexivity|].
  intros H. apply andb_true_iff in H as [H1 H2]. rewrite (IH H2). f_equal.
  unfold ascii_digit in H1. apply andb_true_iff in H1 as [_ H1].
  apply N.leb_le in H1. unfold ascii_lower.
  destruct ((65 <=? c)%N && (c <=? 90)%N) eqn:E; [|reflexivity].
  apply andb_true_iff in E as [E _]. apply N.leb_le in E. lia.
Qed.

(** Nothing is replaced in a string without the first letter of [old]. *)
Lemma replace_from_absent (a : char) (old new s : str) :
  ~ In a s -> replace_from (a :: old) new 0 s = s.
Proof.
  induction s as [|c s IH]; intros H; [reflexivity|].
  cbn [replace_from startswith].
  destruct (N.eqb_spec a c) as [->|_]; [exfalso; apply H; now left|].
  simpl. f_equal. apply IH. intros Hin; apply H; now right.
Qed.

Lemma lstrip_space (ws s : str) :
  forallb isspace ws = true -> lstrip (ws ++ s) = lstrip s.
Proof.
  induction ws as [|c ws IH]; simpl; [reflexivity|].
  intros H. apply andb_true_iff in H as [-> H2]. now apply IH.
Qed.

Lemma strip_digits (ds : str) :
  forallb ascii_digit ds = true -> strip ds = ds.
Proof.
  intros H.
  assert (Hns : forall c, In c ds -> isspace c = false).
  { intros c Hc. rewrite forallb_forall in H. specialize (H c Hc).
    destruct (isspace c) eqn:E; [|reflexivity].
    apply isspace_not_digit in E. congruence. }
  assert (L : forall l : str,
             (forall c, In c l -> isspace c = false) -> lstrip l = l).
  { intros [|c l] Hl; simpl; [reflexivity|].
    now rewrite (Hl c (or_introl eq_refl)). }
  unfold strip, rstrip. rewrite (L ds Hns).
  rewrite L; [apply rev_involutive|].
  intros c Hc. apply Hns. now apply in_rev.
Qed.

Section Int.

Variable py : interp.

Lemma digits_value_decimal (ds : str) :
  forallb ascii_digit ds = true ->
  forall acc,
    digits_value py acc ds =
    Some (fold_left (fun acc c => (10 * acc + (c - 48))%N) ds acc) /\
    leading_digits py ds = length ds.
Proof.
  induction ds as [|c ds IH]; intros H acc; [auto|].
  cbn [forallb] in H. apply andb_true_iff in H as [H1 H2].
  cbn [digits_value leading_digits fold_left length].
  unfold decimal_value. rewrite H1.
  assert (A : is_ascii c = true).
  { unfold ascii_digit in H1. apply andb_true_iff in H1 as [_ H1].
    apply N.leb_le in H1. apply N.ltb_lt. lia. }
  rewrite A. cbv beta iota.
  destruct (IH H2 (10 * acc + (c - 48))%N) as [E1 E2]. rewrite E1, E2. auto.
Qed.

(** [int] of a run of ASCII digits that the interpreter does not find too
    long. *)
Lemma int_digits (ds : str) :
  forallb ascii_digit ds = true -> 1 <= length ds ->
  int_max_str_digits py = 0 \/ length ds <= int_max_str_digits py ->
  int py ds = Ok (decimal ds).
Proof.
  intros H L Hlim. unfold int, decimal.
  destruct (digits_value_decimal ds H 0%N) as [-> ->].
  assert (E : (0 <? int_max_str_digits py)
              && (int_max_str_digits py <? length ds) = false).
  { destruct Hlim as [-> | Hlim]; [reflexivity|].
    apply andb_false_iff; right. apply Nat.ltb_ge. exact Hlim. }
  rewrite E. destruct ds; [simpl in L; lia | reflexivity].
Qed.

End Int.

(** The page number is the number that the digits after the word "page"
    spell, when the word is the first place of the line with a [p]. *)
Theorem extract_pagenum_reads_digits :
  forall (py : interp) (pre w ws ds rest : str),
    Forall (fun c => c <> 112%N /\ c <> 80%N) pre ->
    spells "page" w ->
    forallb isspace ws = true -> forallb is_ascii ws = true ->
    forallb ascii_digit ds = true -> 1 <= length ds <= 40 ->
    length ds = 40 \/
      match rest with [] => True | c :: _ => ascii_digit c = false end ->
    int_max_str_digits py = 0 \/ length ds <= int_max_str_digits py ->
    extract_pagenum py (pre ++ (w ++ ws ++ ds) ++ rest) = Ok (decimal ds).
Proof.
  intros py pre w ws ds rest Hpre Hw Hws Aws Hds Lds Hend Hlim.
  unfold extract_pagenum, re_search.
  rewrite search_from_skip.
  2:{ intros c Hc pos s'. apply page_re_first.
      rewrite Forall_forall in Hpre. destruct (Hpre c Hc) as [P1 P2].
      apply N.eqb_neq. unfold ascii_lower; simpl.
      destruct ((65 <=? c)%N && (c <=? 90)%N) eqn:E; lia. }
  rewrite (search_from_here _ _ _ _ _ _
             (page_re_complete w ws ds rest _ Hw Hws Hds Lds Hend)).
  cbv zeta. simpl (0 + length pre). rewrite slice_middle.
  assert (A : forallb is_ascii (w ++ ws ++ ds) = true).
  { rewrite !forallb_app, Aws, (digits_ascii ds Hds),
      (spells_ascii "page" w Hw eq_refl). reflexivity. }
  unfold lower. rewrite A, !map_app.
  rewrite (lower_space ws Hws), (lower_digits ds Hds). unfold spells in Hw.
  rewrite Hw. change (lit "page") with [112; 97; 103; 101]%N.
  unfold replace. cbn [app replace_from startswith N.eqb Pos.eqb andb length
                         Nat.sub].
  rewrite replace_from_absent.
  2:{ intros Hin. apply in_app_iff in Hin as [Hin|Hin].
      - rewrite forallb_forall in Hws. specialize (Hws _ Hin). discriminate.
      - rewrite forallb_forall in Hds. specialize (Hds _ Hin). discriminate. }
  assert (S : strip (ws ++ ds) = ds).
  { unfold strip. rewrite (lstrip_space ws ds Hws).
    apply (strip_digits ds Hds). }
  rewrite S. apply int_digits; [assumption | lia | assumption].
Qed.

(** On a line 0 that goes on after the page number. *)
Lemma extract_pagenum_reads_digits_witness :
  extract_pagenum ascii_python (lit "Run Date: 1/2/2020  Page 12 of 30")
  = Ok 12%N.
Proof.
  apply (extract_pagenum_reads_digits ascii_python
           (lit "Run Date: 1/2/2020  ") (lit "Page") (lit " ") (lit "12")
           (lit " of 30"));
    try reflexivity.
  - repeat constructor; discriminate.
  - simpl; lia.
  - now right.
  - right; simpl; lia.
Defined.

(** * Texts without a page *)

Lemma in_order_first {A} (chunk : list A) chunks text :
  in_order (chunk :: chunks) text ->
  exists gap rest, text = gap ++ chunk ++ rest.
Proof. inversion 1; eauto. Qed.

(** A text without a page feed has no page: [parse_pdf_index] raises
    [UnboundLocalError] on it, and returns no list. *)
Theorem no_page_feed_no_page :
  forall (py : interp) (World : Type)
         (Popen : list string -> World -> process * World)
         (pdf_file : string) (w w' : World) (pdf_text : bytes),
    get_pdf_text_bytes Popen pdf_file w = (Ok pdf_text, w') ->
    ~ In page_feed pdf_text ->
    pages_of pdf_text = [] /\
    parse_pdf_index py Popen pdf_file w
    = (Raise (UnboundLocalError "expected_lines"), w').
Proof.
  intros py World Popen pdf_file w w' pdf_text G Hno.
  assert (E : pages_of pdf_text = []).
  { destruct (pages_of_chunks pdf_text) as [H1 H2].
    destruct (pages_of pdf_text) as [|chunk chunks]; [reflexivity|].
    exfalso; apply Hno.
    apply in_order_first in H1 as (gap & text & ->).
    inversion H2 as [|? ? Hc _]; subst.
    apply page_chunk_ends in Hc as [body ->].
    apply in_or_app; right. apply in_or_app; left.
    apply in_or_app; right. now left. }
  split; [exact E|].
  unfold parse_pdf_index, yield_pages_as_bytes. now rewrite G, E.
Qed.

(** On a [pdftotext] that prints a few words and no page feed. *)
Lemma no_page_feed_no_page_witness :
  pages_of (blit "no such page") = [] /\
  parse_pdf_index ascii_python (prints (blit "no such page")) "1_2020.pdf" 0
  = (Raise (UnboundLocalError "expected_lines"), 2).
Proof.
  apply (no_page_feed_no_page ascii_python nat
           (prints (blit "no such page")) "1_2020.pdf" 0 2
           (blit "no such page")).
  - reflexivity.
  - apply no_page_feed_iff; reflexivity.
Defined.

(** * Lines that end a page *)

(** The first data line whose CUSIP column is not well formed ends the
    page with [NameError], whatever comes after it: the page gives no
    record. *)
Theorem malformed_cusip_ends_page :
  forall (py : interp) (body : bytes) (text l0 l1 l2 l3 : str)
         (before : list str) (line : str) (after : list str)
         (date_ : str) (pagenum : N) (cusip_s issuer_s descrp_s : nat),
    decode body = Ok text ->
    split line_feed text = l0 :: l1 :: l2 :: l3 :: before ++ line :: after ->
    header_conforms py l0 l1 l2 l3 ->
    extract_date l0 = Ok date_ ->
    extract_pagenum py l0 = Ok pagenum ->
    first_at (lit "CUSIP NO") l3 cusip_s ->
    first_at (lit "ISSUER NAME") l3 issuer_s ->
    first_at (lit "ISSUER DESCRIPTION") l3 descrp_s ->
    Forall (fun line =>
              is_data_line py line = true ->
              well_formed_cusip
                (strip (replace (lit "*") []
                          (slice line cusip_s issuer_s))))
           before ->
    Forall (fun line =>
              is_footer_line py line = true ->
              exists n, int py (filter (isdigit py) line) = Ok n)
           before ->
    is_data_line py line = true ->
    ~ well_formed_cusip
        (strip (replace (lit "*") [] (slice line cusip_s issuer_s))) ->
    parse_page py (body ++ [page_feed])
    = Raise (NameError "MalformedDataError").
Proof.
  intros py body text l0 l1 l2 l3 before line after date_ pagenum cusip_s
    issuer_s descrp_s D S Hh Hd Hp H1 H2 H3 Hc Hf Hl Hbad.
  rewrite (parse_page_body py body text l0 l1 l2 l3 _ date_ pagenum
             cusip_s issuer_s descrp_s D S Hh Hd Hp H1 H2 H3).
  destruct (parse_lines_prefix py date_ pagenum cusip_s issuer_s descrp_s
              before [] None Hc Hf) as [e H].
  rewrite H. cbn [parse_lines].
  unfold is_data_line in Hl. apply andb_true_iff in Hl as [L1 L2].
  apply negb_true_iff in L1, L2. rewrite L1, L2.
  destruct (re_match char_newline cusip_re
              (cusip (security_of date_ pagenum cusip_s issuer_s descrp_s
                        line))) eqn:M; [|reflexivity].
  exfalso. apply Hbad. apply cusip_re_stripped.
  unfold security_of in M; cbn [cusip] in M. congruence.
Qed.

(** On [page_with_bad_cusip]. *)
Lemma malformed_cusip_ends_page_witness :
  parse_page ascii_python page_with_bad_cusip
  = Raise (NameError "MalformedDataError").
Proof.
  apply (malformed_cusip_ends_page ascii_python
           (removelast page_with_bad_cusip)
           (map Byte.to_N (removelast page_with_bad_cusip))
           (lit "Run Date: 1/2/2020  Page 1")
           (lit "Run Time: 10:00  Year 2020")
           []
           (lit "CUSIP NO     ISSUER NAME         ISSUER DESCRIPTION   STATUS")
           []
           (lit "12345 78 9   ACME CORP           WIDGET MAKER")
           [lit "total count: 1"; []]
           (lit "1/2/2020") 1 0 13 33).
  - reflexivity.
  - reflexivity.
  - apply header_ok_conforms; reflexivity.
  - reflexivity.
  - reflexivity.
  - apply find_first_at; reflexivity.
  - apply find_first_at; reflexivity.
  - apply find_first_at; reflexivity.
  - constructor.
  - constructor.
  - reflexivity.
  - intros (g1 & g2 & g3 & E & L1 & L2 & L3 & _).
    apply (f_equal (@length N)) in E. rewrite !length_app in E.
    simpl in E. unfold char in *. lia.
Defined.

(** The first footer line without a digit ends the page with the
    [ValueError] of [int] on the empty string. *)
Theorem footer_without_digit_ends_page :
  forall (py : interp) (body : bytes) (text l0 l1 l2 l3 : str)
         (before : list str) (line : str) (after : list str)
         (date_ : str) (pagenum : N) (cusip_s issuer_s descrp_s : nat),
    decode body = Ok text ->
    split line_feed text = l0 :: l1 :: l2 :: l3 :: before ++ line :: after ->
    header_conforms py l0 l1 l2 l3 ->
    extract_date l0 = Ok date_ ->
    extract_pagenum py l0 = Ok pagenum ->
    first_at (lit "CUSIP NO") l3 cusip_s ->
    first_at (lit "ISSUER NAME") l3 issuer_s ->
    first_at (lit "ISSUER DESCRIPTION") l3 descrp_s ->
    Forall (fun line =>
              is_data_line py line = true ->
              well_formed_cusip
                (strip (replace (lit "*") []
                          (slice line cusip_s issuer_s))))
           before ->
    Forall (fun line =>
              is_footer_line py line = true ->
              exists n, int py (filter (isdigit py) line) = Ok n)
           before ->
    is_footer_line py line = true ->
    filter (isdigit py) line = [] ->
    parse_page py (body ++ [page_feed])
    = Raise (ValueError (Invalid_literal [])).
Proof.
  intros py body text l0 l1 l2 l3 before line after date_ pagenum cusip_s
    issuer_s descrp_s D S Hh Hd Hp H1 H2 H3 Hc Hf Hl Hno.
  rewrite (parse_page_body py body text l0 l1 l2 l3 _ date_ pagenum
             cusip_s issuer_s descrp_s D S Hh Hd Hp H1 H2 H3).
  destruct (parse_lines_prefix py date_ pagenum cusip_s issuer_s descrp_s
              before [] None Hc Hf) as [e H].
  rewrite H. cbn [parse_lines].
  unfold is_footer_line in Hl. apply andb_true_iff in Hl as [L1 L2].
  apply negb_true_iff in L1. rewrite L1, L2, Hno.
  unfold int; simpl.
  destruct (int_max_str_digits py); reflexivity.
Qed.

(** On a page whose footer has no number. *)
Lemma footer_without_digit_ends_page_witness :
  parse_page ascii_python
    (sample_header ++ text_line "total count:" ++ [page_feed])
  = Raise (ValueError (Invalid_literal [])).
Proof.
  apply (footer_without_digit_ends_page ascii_python
           (sample_header ++ text_line "total count:")
           (map Byte.to_N (sample_header ++ text_line "total count:"))
           (lit "Run Date: 1/2/2020  Page 1")
           (lit "Run Time: 10:00  Year 2020")
           []
           (lit "CUSIP NO     ISSUER NAME         ISSUER DESCRIPTION   STATUS")
           []
           (lit "total count:")
           [[]]
           (lit "1/2/2020") 1 0 13 33).
  - reflexivity.
  - reflexivity.
  - apply header_ok_conforms; reflexivity.
  - reflexivity.
  - reflexivity.
  - apply find_first_at; reflexivity.
  - apply find_first_at; reflexivity.
  - apply find_first_at; reflexivity.
  - constructor.
  - constructor.
  - reflexivity.
  - reflexivity.
Defined.

(** * The exceptions of a page *)

Section Total.

Variable A : Type.
Variable newline : A -> bool.

(** A greedy repetition before a rest that always goes on finds a match
    when it can take enough. *)
Lemma many_greedy_total (k : nat -> list A -> option nat) (p : A -> bool)
    (t s : list A) :
  (forall pos s', k pos s' <> None) ->
  forallb p t = true ->
  forall lo hi pos,
    lo <= length t ->
    (forall h, hi = Some h -> lo <= h) ->
    many k false p lo hi pos (t ++ s) <> None.
Proof.
  intros Hk. induction t as [|c t IH]; intros Hp lo hi pos Hlo Hhi;
    rewrite many_unfold; cbv zeta.
  - simpl in Hlo. assert (lo = 0) by lia; subst lo. simpl app.
    match goal with
    | |- match ?more with _ => _ end <> None => destruct more
    end; [discriminate | apply Hk].
  - simpl in Hp; apply andb_true_iff in Hp as [Hc Hp].
    simpl app; cbv beta iota. rewrite Hc; simpl.
    destruct (can_take hi) eqn:C.
    + assert (H : many k false p (pred lo) (option_map pred hi) (S pos)
                    (t ++ s) <> None).
      { apply IH; auto.
        - simpl in Hlo; lia.
        - intros h Hh. destruct hi as [[|h']|]; try discriminate.
          injection Hh as <-. specialize (Hhi (S h') eq_refl). simpl; lia. }
      destruct (many k false p (pred lo) (option_map pred hi) (S pos)
                  (t ++ s)); [discriminate | congruence].
    + destruct hi as [[|h']|]; try discriminate.
      specialize (Hhi 0 eq_refl). assert (lo = 0) by lia; subst lo.
      apply Hk.
Qed.

End Total.

Lemma page_re_shape pos (m rest : str) :
  matches char_newline page_re pos m rest -> page_token m.
Proof.
  unfold page_re; intros H.
  apply matches_letters in H as (w & m1 & -> & Hw & H).
  apply matches_many_inv in H as (ws & m2 & -> & Hws & _ & _ & H).
  apply matches_many_inv in H as (ds & m3 & -> & Hds & L1 & L2 & H).
  apply matches_nil_inv in H; subst m3.
  specialize (L2 40 eq_refl).
  exists w, ws, ds; rewrite app_nil_r.
  repeat split; auto.
  now apply ignorecase_spells in Hw.
Qed.

(** The pattern of the page number finds a token wherever there is one. *)
Lemma page_re_finds (line : str) :
  has_page_token line -> re_search char_newline page_re line <> None.
Proof.
  intros (pre & t & post & -> & w & ws & ds & -> & Hw & Hws & Hds & Lds).
  unfold re_search.
  assert (M : exists e,
             match_here char_newline page_re (0 + length pre)
               ((w ++ ws ++ ds) ++ post) = Some e).
  { apply spells_ignorecase in Hw.
    unfold page_re. rewrite <- !app_assoc.
    rewrite match_letters_complete by assumption.
    rewrite match_here_many.
    destruct (match_here char_newline [Many false 1 (Some 40) ascii_digit]
                (0 + length pre + length (lit "page") + length ws)
                (ds ++ post)) as [e|] eqn:K.
    - exists e. apply many_lazy_complete with (q := ascii_digit); auto.
      + intros p c s' Hc. rewrite match_here_many, many_unfold. cbv zeta.
        now rewrite Hc.
      + apply forallb_forall; intros c Hc. rewrite forallb_forall in Hws.
        rewrite (isspace_not_digit c); auto.
    - exfalso; revert K. rewrite match_here_many.
      apply many_greedy_total; auto.
      + intros p s'; discriminate.
      + unfold char, str in *; lia.
      + intros h [= <-]; lia. }
  destruct M as [e M]. now apply search_from_complete with (e := e).
Qed.

Section Raises.

Variable py : interp.

Lemma int_raises (s : str) (e : exn) :
  int py s = Raise e -> exists m, e = ValueError m.
Proof.
  unfold int.
  destruct ((0 <? int_max_str_digits py)
            && (int_max_str_digits py <? leading_digits py s));
    [intros [= <-]; eauto|].
  destruct s; [intros [= <-]; eauto|].
  destruct (digits_value py 0 (c :: s)); [discriminate|].
  intros [= <-]; eauto.
Qed.

Lemma validate_header_raises (l : list str) (e : exn) :
  validate_header py l = Raise e ->
  e = ValueError (Text "Malformed page header.") \/ e = IndexError.
Proof.
  destruct l as [|l0 [|l1 [|l2 [|l3 tl]]]];
    try (rewrite validate_header_four;
         destruct (header_ok py l0 l1 l2 l3);
         [discriminate | intros [= <-]; now left]);
    unfold validate_header, or_else, bind, index; simpl;
    repeat match goal with
           | |- context [contains ?a ?b] =>
               destruct (contains a b); simpl;
               [|intros [= <-]; now left]
           | |- context [is_empty ?a] =>
               destruct (is_empty a); simpl; [|intros [= <-]; now left]
           end;
    intros [= <-]; now right.
Qed.

Lemma extract_date_raises (line : str) (e : exn) :
  extract_date line = Raise e -> e = AttributeError "start".
Proof.
  unfold extract_date.
  destruct (re_search char_newline run_date_re line) as [[a b]|];
    [|now intros [= <-]].
  destruct (re_search char_newline date_re line) as [[a' b']|];
    [discriminate | now intros [= <-]].
Qed.

Lemma extract_pagenum_raises (line : str) (e : exn) :
  extract_pagenum py line = Raise e ->
  e = AttributeError "start" \/ exists m, e = ValueError m.
Proof.
  unfold extract_pagenum.
  destruct (re_search char_newline page_re line) as [[a b]|];
    [|intros [= <-]; now left].
  intros H; right. now apply int_raises in H.
Qed.

Lemma parse_lines_raises date_ pagenum cusip_s issuer_s descrp_s (e : exn) :
  forall lines securities expected_lines,
    parse_lines py date_ pagenum cusip_s issuer_s descrp_s lines
      securities expected_lines = Raise e ->
    (exists m, e = ValueError m) \/ e = NameError "MalformedDataError".
Proof.
  induction lines as [|line rest IH]; intros secs ex H; simpl in H;
    [discriminate|].
  destruct (is_empty (strip line)); [now apply IH in H|].
  destruct (contains (lit "total count") (lower py line)).
  - destruct (int py (filter (isdigit py) line)) as [n|e'] eqn:I;
      simpl in H; [now apply IH in H|].
    injection H as <-. left. now apply int_raises in I.
  - match type of H with
    | context [re_match ?a ?b ?c] => destruct (re_match a b c)
    end; [now apply IH in H|].
    injection H as <-. now right.
Qed.

End Raises.

(** The page number is missing, and [extract_pagenum] raises the
    [AttributeError] of [m.start()] on [None], exactly on the lines without
    a [page N] token. *)
Theorem extract_pagenum_needs_token :
  forall (py : interp) (line : str),
    extract_pagenum py line = Raise (AttributeError "start")
    <-> ~ has_page_token line.
Proof.
  intros py line; split.
  - intros H Htok. apply page_re_finds in Htok.
    unfold extract_pagenum in H.
    destruct (re_search char_newline page_re line) as [[a b]|];
      [|congruence].
    apply int_raises in H as [m H]. discriminate.
  - intros Hno. unfold extract_pagenum.
    destruct (re_search char_newline page_re line) as [[a b]|] eqn:S;
      [|reflexivity].
    exfalso; apply Hno.
    apply search_from_sound in S as (pre & m & rest & -> & _ & _ & H).
    exists pre, m, rest; split; [reflexivity|].
    now apply page_re_shape in H.
Qed.

(** [parse_page] raises nothing but [IndexError], [ValueError],
    [UnicodeDecodeError], the [AttributeError] of a missing date or page
    number, and the [NameError] of a malformed CUSIP: the searches for the
    three labels never fail, for the header has been validated. *)
Theorem parse_page_exceptions :
  forall (py : interp) (bytes_arr : bytes) (e : exn),
    parse_page py bytes_arr = Raise e ->
    e = IndexError \/ (exists m, e = ValueError m) \/
    e = UnicodeDecodeError \/ e = AttributeError "start" \/
    e = NameError "MalformedDataError".
Proof.
  intros py bytes_arr e.
  induction bytes_arr as [|final body _] using rev_ind.
  { intros [= <-]; now left. }
  rewrite parse_page_feed.
  destruct (Byte.eqb final page_feed);
    [|intros [= <-]; right; left; eauto].
  unfold decode.
  destruct (utf8_decode body) as [text|]; simpl;
    [|intros [= <-]; now (right; right; left)].
  unfold parse_text.
  destruct (validate_header py (firstn 4 (split line_feed text)))
    as [[]|e'] eqn:V; simpl.
  2:{ intros [= <-]. apply validate_header_raises in V as [-> | ->];
        [right; left; eauto | now left]. }
  apply validate_header_ok_inv in V as (l0 & l1 & l2 & l3 & rest & Hs & V).
  rewrite Hs; unfold index; simpl.
  destruct (extract_date l0) as [date_|e'] eqn:Hd; simpl.
  2:{ intros [= <-]. apply extract_date_raises in Hd as ->.
      now (right; right; right; left). }
  destruct (extract_pagenum py l0) as [pagenum|e'] eqn:Hp; simpl.
  2:{ intros [= <-]. apply extract_pagenum_raises in Hp as [-> | Hp];
        [now (right; right; right; left) | now (right; left)]. }
  unfold header_ok in V. rewrite !andb_true_iff in V.
  destruct V as [[[[[[[[_ _] _] _] _] V1] V2] V3] _].
  apply label_span_present in V1 as [s1 ->], V2 as [s2 ->], V3 as [s3 ->].
  simpl. intros H. apply parse_lines_raises in H as [H | ->];
    [now (right; left) | now (right; right; right; right)].
Qed.

(** On [page_without_date], which raises the [AttributeError]. *)
Lemma parse_page_exceptions_witness :
  AttributeError "start" = IndexError \/
  (exists m, AttributeError "start" = ValueError m) \/
  AttributeError "start" = UnicodeDecodeError \/
  AttributeError "start" = AttributeError "start" \/
  AttributeError "start" = NameError "MalformedDataError".
Proof.
  apply (parse_page_exceptions ascii_python page_without_date).
  reflexivity.
Defined.
